(** * CartPoleSwingUp: the motor-driven cart-pole plant of NCSU-GEARS

    A shallow embedding of [src/myCartpoleF_SwingUp.py], class
    [CartPoleSwingUp], over the real numbers.

    Conventions of the embedding.
    - Python floats and numpy arrays are read as exact reals: a float is an
      [R], the 4-element state array is a [vec4], the 5-element observation
      an [obs5].  The casts to [float32] are the identity.
    - Python exceptions are values of [exn]; a method that may raise returns
      a [result].  A float division [a / b] raises [ZeroDivisionError] when
      [b] is zero, as in Python.
    - The object [self] is the record [Env]; a method that assigns to a field
      returns the new record next to its value.
    - [logger.warn] is recorded as the list of messages a call emitted.
    - [render] is a display sink and is left out. *)

From Stdlib Require Import Reals Lra Psatz String List Bool ZArith Lia.
Import ListNotations.
Open Scope R_scope.

(** ** Exceptions and fallible computations *)

Inductive exn : Type :=
| AssertionError (msg : string)
| ZeroDivisionError
| ValueError.

Inductive result (A : Type) : Type :=
| Ok (a : A)
| Raise (e : exn).

Arguments Ok {A} a.
Arguments Raise {A} e.

Definition bind {A B : Type} (c : result A) (k : A -> result B) : result B :=
  match c with
  | Ok a => k a
  | Raise e => Raise e
  end.

Notation "x <- c ;; k" := (bind c (fun x => k))
  (at level 61, c at next level, right associativity).

(** ** Four-element arrays *)

Record vec4 : Type := V4 { c0 : R; c1 : R; c2 : R; c3 : R }.

(** Elementwise numpy arithmetic: [a + b], [r * a], [a / r]. *)
Definition vadd (a b : vec4) : vec4 :=
  V4 (c0 a + c0 b) (c1 a + c1 b) (c2 a + c2 b) (c3 a + c3 b).

Definition vscale (r : R) (a : vec4) : vec4 :=
  V4 (r * c0 a) (r * c1 a) (r * c2 a) (r * c3 a).

Definition vdiv (a : vec4) (r : R) : vec4 :=
  V4 (c0 a / r) (c1 a / r) (c2 a / r) (c3 a / r).

Declare Scope vec_scope.
Delimit Scope vec_scope with vec.
Infix "+v" := vadd (at level 50, left associativity) : vec_scope.
Infix "*v" := vscale (at level 40, left associativity) : vec_scope.
Infix "/v" := vdiv (at level 40, left associativity) : vec_scope.
Local Open Scope vec_scope.

Record obs5 : Type := O5 { o0 : R; o1 : R; o2 : R; o3 : R; o4 : R }.

(** ** Comparisons and clipping *)

Definition Rltb (a b : R) : bool := if Rlt_dec a b then true else false.
Definition Rgtb (a b : R) : bool := if Rgt_dec a b then true else false.

(** [np.clip(a, lo, hi)] is [minimum(maximum(a, lo), hi)]. *)
Definition clip (a lo hi : R) : R := Rmin (Rmax a lo) hi.

(** ** Constants set by [__init__] *)

Definition fps : R := 100.
Definition gravity : R := 9.81.
Definition masscart : R := 0.57 + 0.37.
Definition masspole : R := 0.230.
Definition total_mass : R := masspole + masscart.
Definition length : R := 0.3302.
Definition polemass_length : R := masspole * length.
Definition r_mp : R := 6.35e-3.
Definition Jm : R := 3.90e-7.
Definition Kg : R := 3.71.
Definition Rm : R := 2.6.
Definition Kt : R := 0.00767.
Definition Km : R := 0.00767.
Definition Beq : R := 5.4.
Definition Bp : R := 0.0024.
Definition force_mag : R := 10.0.
Definition tau : R := 1 / fps.
Definition theta_threshold_radians : R := 0.2.
Definition x_threshold : R := 0.25.
Definition max_action : R := 1.0.

Definition assert_msg : string := "Call reset before using step method.".

Definition warn_msg : string :=
  "You are calling 'step()' even though this environment has already returned terminated = True. You should always call 'reset()' once you receive 'terminated = True' -- any further steps are undefined behavior.".

(** ** The simulator object *)

Record Env : Type := mkEnv {
  state : option vec4;
  steps_beyond_terminated : option Z;
  kinematics_integrator : string
}.

(** The object as [__init__] leaves it. *)
Definition init : Env :=
  mkEnv None None "RK4".

Definition set_state (env : Env) (s : vec4) : Env :=
  mkEnv (Some s) (steps_beyond_terminated env) (kinematics_integrator env).

Definition set_steps (env : Env) (n : option Z) : Env :=
  mkEnv (state env) n (kinematics_integrator env).

(** ** The equations of motion

    The two assignments [xacc = ...] and [thetaacc = ...] occur verbatim in
    [RHS], [stepPhysics] and [stepSwingUp]; they read the local variables
    [x_dot], [theta_dot], [sintheta], [costheta] and [force].  Their
    denominators are positive ([denominator_pos] below), so none of their
    divisions can raise. *)

Definition d : R :=
  4 * masscart * r_mp^2 + masspole * r_mp^2 + 4 * Jm * Kg^2.

Definition xacc_of (x_dot theta_dot sintheta costheta force : R) : R :=
  ((-4 * (Rm * r_mp^2 * Beq + Kg^2 * Kt * Km))
     / (Rm * (d + 3 * r_mp^2 * masspole * sintheta^2))) * x_dot
  + ((-3 * Bp * r_mp^2 * costheta)
     / (length * (d + 3 * r_mp^2 * masspole * sintheta^2))) * theta_dot
  + ((-4 * masspole * length * r_mp^2 * sintheta)
     / (d + 3 * r_mp^2 * masspole * sintheta^2)) * theta_dot^2
  + ((3 * masspole * gravity * r_mp^2 * costheta * sintheta)
     / (d + 3 * r_mp^2 * masspole * sintheta^2))
  + (4 * r_mp * Kg * Kt)
     / (Rm * (d + 3 * r_mp^2 * masspole * sintheta^2)) * force.

Definition thetaacc_of (x_dot theta_dot sintheta costheta force : R) : R :=
  ((-3 * (Rm * r_mp^2 * Beq + Kg^2 * Kt * Km) * costheta)
     / (length * Rm * (d + 3 * r_mp^2 * masspole * sintheta^2))) * x_dot
  + ((-3 * (masscart * r_mp^2 + masspole * r_mp^2 + Jm * Kg^2) * Bp)
     / (masspole * length^2 * (d + 3 * r_mp^2 * masspole * sintheta^2)))
    * theta_dot
  + ((-3 * masspole * r_mp^2 * sintheta * costheta)
     / (d + 3 * r_mp^2 * masspole * sintheta^2)) * theta_dot^2
  + ((3 * (masscart * r_mp^2 + masspole * r_mp^2 + Jm * Kg^2) * gravity
        * sintheta)
     / (length * (d + 3 * r_mp^2 * masspole * sintheta^2)))
  + (3 * r_mp * Kg * Kt * costheta)
     / (length * Rm * (d + 3 * r_mp^2 * masspole * sintheta^2)) * force.

(** ** [RHS]

    The parameter [y] is overwritten by [y = self.state] and never read:
    every local is unpacked from [self.state]. *)
Definition RHS (env : Env) (y : vec4) (force : R) : result vec4 :=
  match state env with
  | None => Raise (AssertionError assert_msg)
  | Some (V4 x x_dot theta theta_dot) =>
      let costheta := cos theta in
      let sintheta := sin theta in
      let xacc := xacc_of x_dot theta_dot sintheta costheta force in
      let thetaacc := thetaacc_of x_dot theta_dot sintheta costheta force in
      Ok (V4 x_dot xacc theta_dot thetaacc)
  end.

(** ** [stepPhysics] *)
Definition stepPhysics (env : Env) (force : R) : result vec4 :=
  match state env with
  | None => Raise (AssertionError assert_msg)
  | Some (V4 x x_dot theta theta_dot as self_state) =>
      let costheta := cos theta in
      let sintheta := sin theta in
      let xacc := xacc_of x_dot theta_dot sintheta costheta force in
      let thetaacc := thetaacc_of x_dot theta_dot sintheta costheta force in
      let l := V4 x x_dot theta theta_dot in
      let l :=
        if String.eqb (kinematics_integrator env) "euler" then
          let '(V4 x x_dot theta theta_dot) := l in
          let x := x + tau * x_dot in
          let x_dot := x_dot + tau * xacc in
          let theta := theta + tau * theta_dot in
          let theta_dot := theta_dot + tau * thetaacc in
          V4 x x_dot theta theta_dot
        else l in
      let l :=
        if String.eqb (kinematics_integrator env) "semi-euler" then
          let '(V4 x x_dot theta theta_dot) := l in
          let x_dot := x_dot + tau * xacc in
          let x := x + tau * x_dot in
          let theta_dot := theta_dot + tau * thetaacc in
          let theta := theta + tau * theta_dot in
          V4 x x_dot theta theta_dot
        else l in
      l <- (if String.eqb (kinematics_integrator env) "RK4" then
              let y := self_state in
              k1 <- RHS env y force ;;
              k2 <- RHS env (y +v (tau *v k1) /v 2) force ;;
              k3 <- RHS env (y +v (tau *v k2) /v 2) force ;;
              k4 <- RHS env (y +v tau *v k3) force ;;
              let y := y +v (tau / 6) *v (k1 +v 2 *v k2 +v 2 *v k3 +v k4) in
              Ok y
            else Ok l) ;;
      Ok l
  end.

(** ** [stepSwingUp]

    As [stepPhysics], with the local [theta] rebound to
    [math.atan(sintheta / costheta)] after the sine and cosine are taken. *)
Definition stepSwingUp (env : Env) (force : R) : result vec4 :=
  match state env with
  | None => Raise (AssertionError assert_msg)
  | Some (V4 x x_dot theta theta_dot as self_state) =>
      let costheta := cos theta in
      let sintheta := sin theta in
      theta <- (if Req_dec_T costheta 0 then Raise ZeroDivisionError
                else Ok (atan (sintheta / costheta))) ;;
      let xacc := xacc_of x_dot theta_dot sintheta costheta force in
      let thetaacc := thetaacc_of x_dot theta_dot sintheta costheta force in
      let l := V4 x x_dot theta theta_dot in
      let l :=
        if String.eqb (kinematics_integrator env) "euler" then
          let '(V4 x x_dot theta theta_dot) := l in
          let x := x + tau * x_dot in
          let x_dot := x_dot + tau * xacc in
          let theta := theta + tau * theta_dot in
          let theta_dot := theta_dot + tau * thetaacc in
          V4 x x_dot theta theta_dot
        else l in
      let l :=
        if String.eqb (kinematics_integrator env) "semi-euler" then
          let '(V4 x x_dot theta theta_dot) := l in
          let x_dot := x_dot + tau * xacc in
          let x := x + tau * x_dot in
          let theta_dot := theta_dot + tau * thetaacc in
          let theta := theta + tau * theta_dot in
          V4 x x_dot theta theta_dot
        else l in
      l <- (if String.eqb (kinematics_integrator env) "RK4" then
              let y := self_state in
              k1 <- RHS env y force ;;
              k2 <- RHS env (y +v (tau *v k1) /v 2) force ;;
              k3 <- RHS env (y +v (tau *v k2) /v 2) force ;;
              k4 <- RHS env (y +v tau *v k3) force ;;
              let y := y +v (tau / 6) *v (k1 +v 2 *v k2 +v 2 *v k3 +v k4) in
              Ok y
            else Ok l) ;;
      Ok l
  end.

(** ** [step] *)

(** The tuple [step] returns, without its empty [info] dictionary, and with
    the messages passed to [logger.warn] during the call. *)
Record StepReturn : Type := mkStepReturn {
  obs : obs5;
  reward : R;
  terminated : bool;
  off_track : bool;
  warnings : list string
}.

Definition step (env : Env) (action : R) : result (StepReturn * Env) :=
  let action := clip (max_action * action) (- max_action) max_action in
  let force := force_mag * action in
  s <- stepSwingUp env force ;;
  let env := set_state env s in
  let '(V4 x x_dot theta theta_dot) := s in
  let terminated := Rltb (Rabs theta) (theta_threshold_radians / 4) in
  let off_track := Rgtb (Rabs x) x_threshold in
  let '(reward, env, warnings) :=
    if negb terminated then
      if off_track then (-1000.0, env, [])
      else (1000, env, [])
    else
      match steps_beyond_terminated env with
      | None => (100, set_steps env (Some 0%Z), [])
      | Some n =>
          let warnings := if Z.eqb n 0 then [warn_msg] else [] in
          (1000.0, set_steps env (Some (n + 1)%Z), warnings)
      end in
  let obs := O5 x x_dot (cos theta) (sin theta) theta_dot in
  Ok (mkStepReturn obs reward terminated off_track warnings, env).

(** ** [reset] *)

(** The [options] dictionary of [reset]: absent, or holding optional entries
    ["low"] and ["high"]. *)
Record ResetOptions : Type := mkOptions {
  opt_low : option R;
  opt_high : option R
}.

(** [utils.maybe_parse_reset_bounds] is a helper of the gymnasium library,
    not of this repository.  It returns the defaults when [options] is
    [None], the entries of the dictionary where present, and raises
    [ValueError] when the lower bound exceeds the upper one. *)
Definition maybe_parse_reset_bounds
    (options : option ResetOptions) (default_low default_high : R)
    : result (R * R) :=
  match options with
  | None => Ok (default_low, default_high)
  | Some o =>
      let low := match opt_low o with Some l => l | None => default_low end in
      let high := match opt_high o with Some h => h | None => default_high end in
      if Rgt_dec low high then Raise ValueError else Ok (low, high)
  end.

(** [np_random.uniform(low, high, size=(4,))] of numpy: the generator draws
    four numbers [u] from the unit interval, independently and uniformly,
    and returns [low + (high - low) * u], componentwise.  The four unit
    draws are an argument of the model. *)
Definition uniform (low high : R) (u : vec4) : vec4 :=
  V4 (low + (high - low) * c0 u) (low + (high - low) * c1 u)
     (low + (high - low) * c2 u) (low + (high - low) * c3 u).

Definition vsub (a b : vec4) : vec4 :=
  V4 (c0 a - c0 b) (c1 a - c1 b) (c2 a - c2 b) (c3 a - c3 b).

Definition reset (env : Env) (options : option ResetOptions) (u : vec4)
    : result (obs5 * Env) :=
  bounds <- maybe_parse_reset_bounds options (-0.08) 0.08 ;;
  let '(low, high) := bounds in
  let s := vsub (uniform low high u) (V4 0 0 PI 0) in
  let env := set_state env s in
  let env := set_steps env None in
  let '(V4 x x_dot theta theta_dot) := s in
  let obs := O5 (sin theta) (cos theta) theta_dot x x_dot in
  Ok (obs, env).

(** ** Episodes: consecutive calls of [step] with no [reset] between them *)

Fixpoint run (env : Env) (actions : list R)
    : result (list StepReturn * Env) :=
  match actions with
  | [] => Ok ([], env)
  | a :: rest =>
      r <- step env a ;;
      let '(out, env1) := r in
      rs <- run env1 rest ;;
      let '(outs, env2) := rs in
      Ok (out :: outs, env2)
  end.

(** ** Reference definitions used in the statements *)

(** The time derivative [(x_dot, x_acc, theta_dot, theta_acc)] of the
    equations of motion, evaluated at an arbitrary state [y]. *)
Definition derivative (y : vec4) (force : R) : vec4 :=
  let '(V4 x x_dot theta theta_dot) := y in
  V4 x_dot (xacc_of x_dot theta_dot (sin theta) (cos theta) force)
     theta_dot (thetaacc_of x_dot theta_dot (sin theta) (cos theta) force).

(** One explicit Euler update of length [h]. *)
Definition euler_update (f : vec4 -> R -> vec4) (h : R) (s : vec4) (F : R)
    : vec4 :=
  s +v h *v f s F.

(** One step of the classical fourth-order Runge-Kutta scheme of length [h]
    for the right-hand side [f], the force held constant. *)
Definition rk4_update (f : vec4 -> R -> vec4) (h : R) (s : vec4) (F : R)
    : vec4 :=
  let k1 := f s F in
  let k2 := f (s +v (h / 2) *v k1) F in
  let k3 := f (s +v (h / 2) *v k2) F in
  let k4 := f (s +v h *v k3) F in
  s +v (h / 6) *v (k1 +v 2 *v k2 +v 2 *v k3 +v k4).

(** The two-argument arctangent: the angle in (-PI, PI] of the point
    [(x, y)]. *)
Definition atan2 (y x : R) : R :=
  if Rlt_dec 0 x then atan (y / x)
  else if Rlt_dec x 0 then
    if Rle_dec 0 y then atan (y / x) + PI else atan (y / x) - PI
  else if Rlt_dec 0 y then PI / 2
  else if Rlt_dec y 0 then - (PI / 2)
  else 0.

(** The force [step] hands to the integrator: the action clipped to
    [[-max_action, max_action]] and scaled by [force_mag]. *)
Definition force_of_action (action : R) : R :=
  force_mag * clip (max_action * action) (- max_action) max_action.

(** Bookkeeping over the outputs of an episode. *)
Definition counter_set (env : Env) : bool :=
  match steps_beyond_terminated env with Some _ => true | None => false end.

(** Number of terminal steps the counter stands for. *)
Definition terminal_steps_seen (env : Env) : Z :=
  match steps_beyond_terminated env with
  | Some n => n + 1
  | None => 0
  end.

Definition counter_ok (env : Env) : Prop :=
  forall n, steps_beyond_terminated env = Some n -> (0 <= n)%Z.

Definition bool_to_Z (b : bool) : Z := if b then 1%Z else 0%Z.

(** Number of outputs with [terminated = true]. *)
Fixpoint terminal_count (outs : list StepReturn) : Z :=
  match outs with
  | [] => 0%Z
  | o :: rest => (bool_to_Z (terminated o) + terminal_count rest)%Z
  end.

Definition warning_count (outs : list StepReturn) : nat :=
  List.length (concat (map warnings outs)).

(** The cart starts off the track with the pole upright and turning at
    4 rad/s.  The first call finds the angle 0.04 inside the window and
    returns [terminated = true]; the second finds the angle near 0.08,
    outside the window, with the cart still off the track. *)
Definition passing_env : Env := mkEnv (Some (V4 0.3 0 0 4)) None "RK4".

(** The pole sits just inside the upright window and drifts outwards at
    0.04 rad/s.  The first call finds the angle 0.0499 inside the window;
    the second, pushing the cart with full negative force, finds it just
    outside and reverses the rate; the third finds it inside again. *)
Definition returning_env : Env := mkEnv (Some (V4 0 0 0.0495 0.04)) None "RK4".

(** Elementwise negation of an array: the mirror image of a state. *)
Definition vneg (a : vec4) : vec4 :=
  V4 (- c0 a) (- c1 a) (- c2 a) (- c3 a).

(** ** [reward]: the energy helper

    The method unpacks [self.state], which raises [TypeError] on [None],
    computes [energy_total] and [lyapunov_2] and returns the former. *)
Module Energy.

Inductive outcome : Type :=
| Returned (r : R)
| TypeError.

Definition reward (env : Env) : outcome :=
  match state env with
  | None => TypeError
  | Some (V4 x x_dot theta theta_dot) =>
      let energy_total :=
        2 / 3 * masspole * length ^ 2 * theta_dot
        + masspole * length * gravity * (cos theta - 1) in
      let lyapunov_2 :=
        1 / 2 * energy_total ^ 2 + 1e-4 * (1 - (cos theta) ^ 3) in
      Returned energy_total
  end.

End Energy.

(** ** [myCartPoleFVectorEnv]: a batch of textbook cart-poles

    The 4-by-[num_envs] state array is the list of its columns, one
    [vec4] per sub-environment, which is also the list of rows of the
    transposed array [self.state.T] that [step] and [reset] return.
    Elementwise array arithmetic is carried out column by column.  The
    [int32] counters wrap around.  The unit draws of the generator are an
    argument: [draws j] holds the four draws that land in the [j]-th column
    of the array [np_random.uniform] returns. *)
Module VectorEnv.

Definition gravity : R := 9.8.
Definition masscart : R := 1.0.
Definition masspole : R := 0.1.
Definition total_mass : R := masspole + masscart.
Definition length : R := 0.5.
Definition polemass_length : R := masspole * length.
Definition force_mag : R := 10.0.
Definition tau : R := 0.02.
Definition theta_threshold_radians : R := 12 * 2 * PI / 360.
Definition x_threshold : R := 2.4.

Record VEnv : Type := mkVEnv {
  num_envs : nat;
  max_episode_steps : Z;
  kinematics_integrator : string;
  steps : list Z;
  low : R;
  high : R;
  state : option (list vec4);
  steps_beyond_terminated : option Z
}.

(** The object as [__init__] leaves it. *)
Definition init (num_envs : nat) (max_episode_steps : Z) : VEnv :=
  mkVEnv num_envs max_episode_steps "euler" (repeat 0%Z num_envs)
         (-0.05) 0.05 None None.

(** [int32] arithmetic. *)
Definition wrap32 (z : Z) : Z :=
  ((z + 2 ^ 31) mod 2 ^ 32 - 2 ^ 31)%Z.

(** [np.sign]. *)
Definition sign (r : R) : R :=
  if Rlt_dec 0 r then 1 else if Rlt_dec r 0 then -1 else 0.

Fixpoint map2 {A B C : Type} (f : A -> B -> C) (l : list A) (m : list B)
    : list C :=
  match l, m with
  | a :: l', b :: m' => f a b :: map2 f l' m'
  | _, _ => []
  end.

(** [self.action_space.contains(action)] for the batched [Discrete(2)]
    space: an integer array of length [num_envs] with entries 0 or 1. *)
Definition contains (venv : VEnv) (action : list Z) : bool :=
  Nat.eqb (List.length action) (num_envs venv)
  && forallb (fun a => Z.leb 0 a && Z.ltb a 2) action.

(** Stands for the formatted message of the first assertion of [step]. *)
Definition invalid_action_msg : string := "action invalid".

(** One column of the integration of [step]. *)
Definition advance (mode : string) (s : vec4) (a : Z) : vec4 :=
  let '(V4 x x_dot theta theta_dot) := s in
  let force := sign (IZR a - 0.5) * force_mag in
  let costheta := cos theta in
  let sintheta := sin theta in
  let temp :=
    (force + polemass_length * theta_dot ^ 2 * sintheta) / total_mass in
  let thetaacc :=
    (gravity * sintheta - costheta * temp)
    / (length * (4.0 / 3.0 - masspole * costheta ^ 2 / total_mass)) in
  let xacc := temp - polemass_length * thetaacc * costheta / total_mass in
  if String.eqb mode "euler" then
    let x := x + tau * x_dot in
    let x_dot := x_dot + tau * xacc in
    let theta := theta + tau * theta_dot in
    let theta_dot := theta_dot + tau * thetaacc in
    V4 x x_dot theta theta_dot
  else
    let x_dot := x_dot + tau * xacc in
    let x := x + tau * x_dot in
    let theta_dot := theta_dot + tau * thetaacc in
    let theta := theta + tau * theta_dot in
    V4 x x_dot theta theta_dot.

Definition out_of_bounds (s : vec4) : bool :=
  Rltb (c0 s) (- x_threshold) || Rgtb (c0 s) x_threshold
  || Rltb (c2 s) (- theta_threshold_radians)
  || Rgtb (c2 s) theta_threshold_radians.

(** [self.state[:, done] = fresh]: the [j]-th column flagged in [done]
    receives the [j]-th column of the fresh array. *)
Fixpoint assign_done (fresh : nat -> vec4) (j : nat)
    (cols : list vec4) (done : list bool) : list vec4 :=
  match cols, done with
  | c :: cols', true :: done' => fresh j :: assign_done fresh (S j) cols' done'
  | c :: cols', false :: done' => c :: assign_done fresh j cols' done'
  | _, _ => []
  end.

Record StepReturn : Type := mkStepReturn {
  obs : list vec4;
  reward : list R;
  terminated : list bool;
  truncated : list bool
}.

Definition step (venv : VEnv) (action : list Z) (draws : nat -> vec4)
    : result (StepReturn * VEnv) :=
  if negb (contains venv action) then Raise (AssertionError invalid_action_msg)
  else
    match state venv with
    | None => Raise (AssertionError assert_msg)
    | Some cols =>
        let cols := map2 (advance (kinematics_integrator venv)) cols action in
        let terminated := map out_of_bounds cols in
        let steps := map (fun c => wrap32 (c + 1)) (steps venv) in
        let truncated := map (fun c => Z.leb (max_episode_steps venv) c) steps in
        let done := map2 orb terminated truncated in
        let '(cols, steps) :=
          if existsb (fun b => b) done then
            (assign_done (fun j => uniform (low venv) (high venv) (draws j))
                         0 cols done,
             map2 (fun c (b : bool) => if b then 0%Z else c) steps done)
          else (cols, steps) in
        let reward := map (fun _ => 1) terminated in
        Ok (mkStepReturn cols reward terminated truncated,
            mkVEnv (num_envs venv) (max_episode_steps venv)
                   (kinematics_integrator venv) steps
                   (low venv) (high venv) (Some cols)
                   (steps_beyond_terminated venv))
    end.

Definition reset (venv : VEnv) (options : option ResetOptions)
    (draws : nat -> vec4) : result (list vec4 * VEnv) :=
  bounds <- maybe_parse_reset_bounds options (-0.05) 0.05 ;;
  let '(low, high) := bounds in
  let cols :=
    map (fun j => uniform low high (draws j)) (seq 0 (num_envs venv)) in
  Ok (cols,
      mkVEnv (num_envs venv) (max_episode_steps venv)
             (kinematics_integrator venv) (steps venv)
             low high (Some cols) None).

(** Predicates used in the statements about the batch. *)

(** An action the batched space accepts. *)
Definition valid_action (venv : VEnv) (action : list Z) : Prop :=
  List.length action = num_envs venv /\
  Forall (fun a => a = 0%Z \/ a = 1%Z) action.

(** The arrays of the object have one entry per sub-environment. *)
Definition shaped (venv : VEnv) (cols : list vec4) : Prop :=
  state venv = Some cols /\
  List.length cols = num_envs venv /\
  List.length (steps venv) = num_envs venv.

Definition in_bounds (s : vec4) : Prop :=
  - x_threshold <= c0 s <= x_threshold /\
  - theta_threshold_radians <= c2 s <= theta_threshold_radians.

Definition in_box (lo hi : R) (s : vec4) : Prop :=
  lo <= c0 s <= hi /\ lo <= c1 s <= hi /\
  lo <= c2 s <= hi /\ lo <= c3 s <= hi.

Definition unit_draw (u : vec4) : Prop :=
  0 <= c0 u <= 1 /\ 0 <= c1 u <= 1 /\ 0 <= c2 u <= 1 /\ 0 <= c3 u <= 1.

Definition counter_in_range (venv : VEnv) (c : Z) : Prop :=
  (0 <= c < Z.max 1 (max_episode_steps venv))%Z.

(** What [reset] establishes and [step] keeps: shaped arrays, stored
    states within the thresholds, counters below the episode length, and
    reset bounds inside the thresholds. *)
Definition healthy (venv : VEnv) : Prop :=
  exists cols,
    shaped venv cols /\
    Forall in_bounds cols /\
    Forall (counter_in_range venv) (steps venv) /\
    (max_episode_steps venv <= 2 ^ 31 - 1)%Z /\
    low venv <= high venv /\
    - x_threshold <= low venv /\ high venv <= x_threshold /\
    - theta_threshold_radians <= low venv /\
    high venv <= theta_threshold_radians.

(** A batch of two used to exercise the statements, and a generator that
    always draws one half. *)
Definition two_poles : VEnv :=
  mkVEnv 2 500 "euler" [0%Z; 499%Z] (-0.05) 0.05
         (Some [V4 0 0 0 0; V4 0.01 0 0.02 0]) None.

Definition half_draws : nat -> vec4 := fun _ => V4 0.5 0.5 0.5 0.5.

End VectorEnv.


(** ** Basic facts *)

Ltac unfold_constants :=
  unfold d, gravity, masscart, masspole, length, r_mp, Jm, Kg, Rm, Kt, Km,
    Beq, Bp, tau, fps in *.

Ltac nonzero := first [lra | unfold Rm, length, masspole; lra].

Ltac step_case :=
  try discriminate;
  repeat match goal with
         | H : Some _ = Some _ |- _ => injection H as H; subst
         end;
  try reflexivity; try congruence; try lra.

Lemma vec4_eq (a b : vec4) :
  c0 a = c0 b -> c1 a = c1 b -> c2 a = c2 b -> c3 a = c3 b -> a = b.
Proof. destruct a, b; simpl; intros; subst; reflexivity. Qed.

Lemma d_pos : 0 < d.
Proof.
  unfold d, masscart, masspole, r_mp, Jm, Kg. lra.
Qed.

(** The denominators of the equations of motion never vanish. *)
Lemma denominator_pos (sintheta : R) :
  0 < d + 3 * r_mp^2 * masspole * sintheta^2.
Proof.
  pose proof d_pos as Hd.
  assert (0 <= sintheta^2) by (apply pow2_ge_0).
  assert (0 <= 3 * r_mp^2 * masspole) by (unfold r_mp, masspole; lra).
  nra.
Qed.

Lemma RHS_reads_state (env : Env) (s y : vec4) (force : R) :
  state env = Some s -> RHS env y force = Ok (derivative s force).
Proof.
  intros Hs. unfold RHS, derivative. rewrite Hs. destruct s. reflexivity.
Qed.

Lemma RHS_ignores_argument (env : Env) (y y' : vec4) (force : R) :
  RHS env y force = RHS env y' force.
Proof. reflexivity. Qed.

Lemma rk4_collapse (y k : vec4) :
  y +v (tau / 6) *v (k +v 2 *v k +v 2 *v k +v k) = y +v tau *v k.
Proof.
  apply vec4_eq; simpl; field.
Qed.

Lemma stepPhysics_RK4 (env : Env) (s : vec4) (F : R) :
  state env = Some s ->
  kinematics_integrator env = "RK4"%string ->
  stepPhysics env F = Ok (euler_update derivative tau s F).
Proof.
  intros Hs Hm. destruct env as [st n mode]; simpl in *; subst.
  destruct s as [x xd th thd]. unfold stepPhysics, RHS; simpl.
  unfold euler_update. rewrite rk4_collapse. reflexivity.
Qed.

Lemma stepSwingUp_RK4 (env : Env) (s : vec4) (F : R) :
  state env = Some s ->
  kinematics_integrator env = "RK4"%string ->
  cos (c2 s) <> 0 ->
  stepSwingUp env F = Ok (euler_update derivative tau s F).
Proof.
  intros Hs Hm Hc. destruct env as [st n mode]; simpl in *; subst.
  destruct s as [x xd th thd]. unfold stepSwingUp, RHS; simpl in *.
  destruct (Req_dec_T (cos th) 0) as [E | _]; [contradiction |].
  simpl. unfold euler_update. rewrite rk4_collapse. reflexivity.
Qed.

Lemma stepSwingUp_zero_cos (env : Env) (s : vec4) (F : R) :
  state env = Some s ->
  cos (c2 s) = 0 ->
  stepSwingUp env F = Raise ZeroDivisionError.
Proof.
  intros Hs Hc. unfold stepSwingUp. rewrite Hs.
  destruct s as [x xd th thd]. simpl in *.
  destruct (Req_dec_T (cos th) 0) as [_ | N]; [reflexivity | contradiction].
Qed.

(** [stepSwingUp] returns a state in every integrator mode as soon as the
    stored state is initialised and its angle has a non-zero cosine. *)
Lemma stepSwingUp_returns (env : Env) (s : vec4) (F : R) :
  state env = Some s ->
  cos (c2 s) <> 0 ->
  exists s', stepSwingUp env F = Ok s'.
Proof.
  intros Hs Hc. destruct env as [st n mode]; simpl in *; subst.
  destruct s as [x xd th thd]. unfold stepSwingUp, RHS; simpl in *.
  destruct (Req_dec_T (cos th) 0) as [E | _]; [contradiction |].
  simpl.
  destruct (String.eqb mode "RK4"); simpl; eexists; reflexivity.
Qed.

(** What [step] does once the integrator has returned the state [s']. *)
Lemma step_after_integration (env : Env) (action : R) (s' : vec4) :
  stepSwingUp env (force_of_action action) = Ok s' ->
  exists out env',
    step env action = Ok (out, env') /\
    state env' = Some s' /\
    kinematics_integrator env' = kinematics_integrator env /\
    obs out = O5 (c0 s') (c1 s') (cos (c2 s')) (sin (c2 s')) (c3 s') /\
    terminated out = Rltb (Rabs (c2 s')) (theta_threshold_radians / 4) /\
    off_track out = Rgtb (Rabs (c0 s')) x_threshold /\
    (terminated out = false ->
       reward out = (if off_track out then -1000 else 1000) /\
       steps_beyond_terminated env' = steps_beyond_terminated env /\
       warnings out = []) /\
    (terminated out = true -> steps_beyond_terminated env = None ->
       reward out = 100 /\
       steps_beyond_terminated env' = Some 0%Z /\
       warnings out = []) /\
    (terminated out = true -> forall n, steps_beyond_terminated env = Some n ->
       reward out = 1000 /\
       steps_beyond_terminated env' = Some (n + 1)%Z /\
       warnings out = if Z.eqb n 0 then [warn_msg] else []).
Proof.
  intros Hs. unfold step. fold (force_of_action action). rewrite Hs.
  destruct s' as [x xd th thd]. destruct env as [st sbt mode].
  unfold set_state, set_steps. cbn -[Rltb Rgtb].
  destruct (Rltb (Rabs th) (theta_threshold_radians / 4)) eqn:Ht;
    cbn -[Rltb Rgtb].
  - destruct sbt as [n |]; cbn -[Rltb Rgtb];
      (do 2 eexists; split; [reflexivity |]; cbn -[Rltb Rgtb];
       repeat split; intros; step_case).
  - destruct (Rgtb (Rabs x) x_threshold) eqn:Ho;
      (do 2 eexists; split; [reflexivity |]; cbn -[Rltb Rgtb];
       try rewrite Ho; repeat split; intros; step_case).
Qed.

Lemma step_raises_with_integrator (env : Env) (action : R) (e : exn) :
  stepSwingUp env (force_of_action action) = Raise e ->
  step env action = Raise e.
Proof.
  intros Hs. unfold step. fold (force_of_action action). rewrite Hs.
  reflexivity.
Qed.

(** ** The integrator in the default mode *)

(** C3.  In the default ["RK4"] mode every stage evaluation [RHS(., F)]
    returns the derivative [k] of the stored state [s], whatever state it is
    handed, so [stepPhysics] returns the single explicit Euler update
    [s + tau * k], and so does [stepSwingUp] whenever it returns a state
    (which it does as soon as [cos theta] is not zero). *)
Theorem rk4_mode_is_single_euler_update (env : Env) (s : vec4) (F : R) :
  state env = Some s ->
  kinematics_integrator env = "RK4"%string ->
  exists k,
    (forall y, RHS env y F = Ok k) /\
    stepPhysics env F = Ok (s +v tau *v k) /\
    (cos (c2 s) <> 0 -> stepSwingUp env F = Ok (s +v tau *v k)) /\
    (forall s', stepSwingUp env F = Ok s' -> s' = s +v tau *v k).
Proof.
  intros Hs Hm. exists (derivative s F). repeat split.
  - intros y. now apply RHS_reads_state.
  - now apply stepPhysics_RK4.
  - intros Hc. now apply stepSwingUp_RK4.
  - intros s' Hs'.
    destruct (Req_dec_T (cos (c2 s)) 0) as [Hc | Hc].
    + rewrite (stepSwingUp_zero_cos env s F Hs Hc) in Hs'. discriminate.
    + rewrite (stepSwingUp_RK4 env s F Hs Hm Hc) in Hs'.
      injection Hs' as <-. reflexivity.
Qed.

Lemma rk4_mode_is_single_euler_update_witness :
  let env := mkEnv (Some (V4 0 1 0 0)) None "RK4" in
  state env = Some (V4 0 1 0 0) /\
  kinematics_integrator env = "RK4"%string /\
  exists k,
    (forall y, RHS env y 0 = Ok k) /\
    stepPhysics env 0 = Ok (V4 0 1 0 0 +v tau *v k) /\
    (cos (c2 (V4 0 1 0 0)) <> 0 ->
     stepSwingUp env 0 = Ok (V4 0 1 0 0 +v tau *v k)) /\
    (forall s', stepSwingUp env 0 = Ok s' -> s' = V4 0 1 0 0 +v tau *v k).
Proof.
  intros env. split; [reflexivity |]. split; [reflexivity |].
  apply (rk4_mode_is_single_euler_update env (V4 0 1 0 0) 0); reflexivity.
Defined.

(** ** Calling [step] before [reset] *)

(** C10.  On an object whose state was never initialised, [step] raises the
    assertion error of the integrator for every action; the integrator
    itself raises it for every force, so no state is computed. *)
Theorem step_before_reset_fails (env : Env) (action : R) :
  state env = None ->
  step env action = Raise (AssertionError assert_msg) /\
  (forall force, stepSwingUp env force = Raise (AssertionError assert_msg)).
Proof.
  intros Hs.
  assert (Hi : forall force,
             stepSwingUp env force = Raise (AssertionError assert_msg)).
  { intros force. unfold stepSwingUp. rewrite Hs. reflexivity. }
  split; [| exact Hi].
  apply step_raises_with_integrator. apply Hi.
Qed.

Lemma step_before_reset_fails_witness :
  state init = None /\
  step init 0.5 = Raise (AssertionError assert_msg) /\
  (forall force, stepSwingUp init force = Raise (AssertionError assert_msg)).
Proof.
  split; [reflexivity |].
  apply (step_before_reset_fails init 0.5). reflexivity.
Defined.

(** ** [RHS] and its argument *)

Lemma xacc_of_rest : xacc_of 0 0 0 1 0 = 0.
Proof. unfold xacc_of, Rdiv. ring. Qed.

Lemma thetaacc_of_rest : thetaacc_of 0 0 0 1 0 = 0.
Proof. unfold thetaacc_of, Rdiv. ring. Qed.

(** C2.  With the stored state at rest at the origin, [RHS] called on the
    hypothetical state [y = (0, 1, 0, 0)] with zero force returns the zero
    vector, the derivative of the stored state, while the derivative
    evaluated at [y] has first component [1]. *)
Theorem RHS_evaluates_stored_state_not_argument :
  let env := mkEnv (Some (V4 0 0 0 0)) None "RK4" in
  let y := V4 0 1 0 0 in
  RHS env y 0 = Ok (V4 0 0 0 0) /\
  c0 (derivative y 0) = 1 /\
  RHS env y 0 <> Ok (derivative y 0).
Proof.
  intros env y.
  assert (H : RHS env y 0 = Ok (V4 0 0 0 0)).
  { unfold RHS, env. cbn [state]. rewrite sin_0, cos_0.
    rewrite xacc_of_rest, thetaacc_of_rest. reflexivity. }
  split; [exact H |]. split; [reflexivity |].
  rewrite H. intros E.
  apply (f_equal (fun r => match r with Ok v => c0 v | Raise _ => 0 end)) in E.
  simpl in E. lra.
Qed.

(** ** The default step against the Runge-Kutta scheme *)

Lemma xacc_of_scaled (x_dot theta_dot sn cs force : R) :
  xacc_of x_dot theta_dot sn cs force
    * (Rm * length * (d + 3 * r_mp^2 * masspole * sn^2))
  = -4 * (Rm * r_mp^2 * Beq + Kg^2 * Kt * Km) * length * x_dot
    - 3 * Bp * r_mp^2 * cs * Rm * theta_dot
    - 4 * masspole * length^2 * r_mp^2 * sn * Rm * theta_dot^2
    + 3 * masspole * gravity * r_mp^2 * cs * sn * Rm * length
    + 4 * r_mp * Kg * Kt * length * force.
Proof.
  pose proof (denominator_pos sn) as HD.
  unfold xacc_of. field. repeat split; nonzero.
Qed.

Lemma thetaacc_of_scaled (x_dot theta_dot sn cs force : R) :
  thetaacc_of x_dot theta_dot sn cs force
    * (Rm * length^2 * masspole * (d + 3 * r_mp^2 * masspole * sn^2))
  = -3 * (Rm * r_mp^2 * Beq + Kg^2 * Kt * Km) * cs * length * masspole * x_dot
    - 3 * (masscart * r_mp^2 + masspole * r_mp^2 + Jm * Kg^2) * Bp * Rm
        * theta_dot
    - 3 * masspole^2 * r_mp^2 * sn * cs * length^2 * Rm * theta_dot^2
    + 3 * (masscart * r_mp^2 + masspole * r_mp^2 + Jm * Kg^2) * gravity * sn
        * length * Rm * masspole
    + 3 * r_mp * Kg * Kt * cs * length * masspole * force.
Proof.
  pose proof (denominator_pos sn) as HD.
  unfold thetaacc_of. field. repeat split; nonzero.
Qed.

Lemma xacc_at_unit_speed : -11.61 < xacc_of 1 0 0 1 0 < -11.60.
Proof.
  pose proof (xacc_of_scaled 1 0 0 1 0) as H.
  set (a := xacc_of 1 0 0 1 0) in *.
  unfold_constants. lra.
Qed.

Lemma thetaacc_at_unit_speed : -26.37 < thetaacc_of 1 0 0 1 0 < -26.36.
Proof.
  pose proof (thetaacc_of_scaled 1 0 0 1 0) as H.
  set (a := thetaacc_of 1 0 0 1 0) in *.
  unfold_constants. lra.
Qed.

Lemma scaled_negative (a c n : R) : a * c = n -> 0 < c -> n < 0 -> a < 0.
Proof.
  intros E Hc Hn. destruct (Rlt_le_dec a 0) as [H | H]; [exact H |].
  assert (0 <= a * c) by (apply Rmult_le_pos; lra). lra.
Qed.

Lemma rk4_moves_cart_less :
  c0 (rk4_update derivative tau (V4 0 1 0 0) 0) < tau.
Proof.
  unfold rk4_update, derivative.
  cbn [vadd vscale c0 c1 c2 c3].
  replace (0 + tau / 2 * 0) with 0 by ring.
  rewrite sin_0, cos_0.
  pose proof xacc_at_unit_speed as Ha1. pose proof thetaacc_at_unit_speed as Hb1.
  set (a1 := xacc_of 1 0 0 1 0) in *.
  set (b1 := thetaacc_of 1 0 0 1 0) in *.
  pose proof (xacc_of_scaled (1 + tau / 2 * a1) (0 + tau / 2 * b1) 0 1 0) as E2.
  pose proof (thetaacc_of_scaled (1 + tau / 2 * a1) (0 + tau / 2 * b1) 0 1 0)
    as F2.
  set (a2 := xacc_of (1 + tau / 2 * a1) (0 + tau / 2 * b1) 0 1 0) in *.
  set (b2 := thetaacc_of (1 + tau / 2 * a1) (0 + tau / 2 * b1) 0 1 0) in *.
  assert (Ha2 : -10.94 < a2 < -10.93) by (unfold_constants; lra).
  assert (Hb2 : -24.83 < b2 < -24.82) by (unfold_constants; lra).
  clear E2 F2.
  set (th3 := 0 + tau / 2 * (0 + tau / 2 * b1)).
  pose proof (xacc_of_scaled (1 + tau / 2 * a2) (0 + tau / 2 * b2)
                (sin th3) (cos th3) 0) as E3.
  set (a3 := xacc_of (1 + tau / 2 * a2) (0 + tau / 2 * b2)
               (sin th3) (cos th3) 0) in *.
  pose proof (SIN_bound th3) as Hsn. pose proof (COS_bound th3) as Hcs.
  pose proof (denominator_pos (sin th3)) as HD.
  set (sn := sin th3) in *. set (cs := cos th3) in *.
  set (xd3 := 1 + tau / 2 * a2) in *. set (thd3 := 0 + tau / 2 * b2) in *.
  assert (Hxd3 : 0.94 < xd3 < 0.95) by (unfold xd3, tau, fps; lra).
  assert (Hthd3 : -0.125 < thd3 < -0.124) by (unfold thd3, tau, fps; lra).
  assert (Hp1 : -0.125 <= cs * thd3 <= 0.125) by nra.
  assert (Hq : 0 <= thd3 ^ 2 <= 0.016) by nra.
  assert (Hp2 : -0.016 <= sn * thd3 ^ 2 <= 0.016) by nra.
  assert (Hp3 : -1 <= cs * sn <= 1) by nra.
  assert (Ha3 : a3 < 0).
  { apply (scaled_negative _ _ _ E3).
    - apply Rmult_lt_0_compat; [unfold Rm, length; lra | exact HD].
    - set (p1 := cs * thd3) in *. set (p2 := sn * thd3 ^ 2) in *.
      set (p3 := cs * sn) in *.
      replace (3 * Bp * r_mp ^ 2 * cs * Rm * thd3)
        with (3 * Bp * r_mp ^ 2 * Rm * p1) by (unfold p1; ring).
      replace (4 * masspole * length ^ 2 * r_mp ^ 2 * sn * Rm * thd3 ^ 2)
        with (4 * masspole * length ^ 2 * r_mp ^ 2 * Rm * p2)
        by (unfold p2; ring).
      replace (3 * masspole * gravity * r_mp ^ 2 * cs * sn * Rm * length)
        with (3 * masspole * gravity * r_mp ^ 2 * Rm * length * p3)
        by (unfold p3; ring).
      unfold_constants. lra. }
  unfold tau, fps. lra.
Qed.

(** C1.  From the stored state [(0, 1, 0, 0)] with zero force, the default
    step returns the Euler update, whose cart position is [tau]; one step of
    the classical Runge-Kutta scheme on the equations of motion moves the
    cart strictly less, so the returned state is not the Runge-Kutta one. *)
Theorem default_step_is_euler_not_rk4 :
  let s := V4 0 1 0 0 in
  let env := mkEnv (Some s) None "RK4" in
  stepSwingUp env 0 = Ok (euler_update derivative tau s 0) /\
  c0 (euler_update derivative tau s 0) = tau /\
  c0 (rk4_update derivative tau s 0) < tau /\
  stepSwingUp env 0 <> Ok (rk4_update derivative tau s 0).
Proof.
  intros s env.
  assert (Hc : cos (c2 s) <> 0) by (simpl; rewrite cos_0; lra).
  assert (He : stepSwingUp env 0 = Ok (euler_update derivative tau s 0))
    by (apply stepSwingUp_RK4; [reflexivity | reflexivity | exact Hc]).
  assert (Hx : c0 (euler_update derivative tau s 0) = tau)
    by (simpl; ring).
  pose proof rk4_moves_cart_less as Hlt. fold s in Hlt.
  repeat split; try assumption.
  rewrite He. intros E.
  assert (E0 : c0 (euler_update derivative tau s 0)
               = c0 (rk4_update derivative tau s 0)) by congruence.
  lra.
Qed.

(** ** The angle re-wrap of [stepSwingUp] *)

Lemma PI_gt_3 : 3 < PI.
Proof. pose proof PI2_3_2. lra. Qed.

Lemma cos_3_neg : cos 3 < 0.
Proof.
  pose proof PI_4. pose proof PI_gt_3. apply cos_lt_0; lra.
Qed.

Lemma sin_3_pos : 0 < sin 3.
Proof.
  pose proof PI_gt_3. apply sin_gt_0; lra.
Qed.

(** [atan (sin t / cos t)] is the representative of [t] modulo [PI] in
    (-PI/2, PI/2): for [t = 3] it is [3 - PI]. *)
Lemma atan_tan_3 : atan (sin 3 / cos 3) = 3 - PI.
Proof.
  pose proof PI_4. pose proof PI_gt_3. pose proof cos_3_neg.
  assert (Hs : sin (3 - PI) = - sin 3).
  { pose proof (neg_sin (3 - PI)) as E.
    replace (3 - PI + PI) with 3 in E by ring. lra. }
  assert (Hc : cos (3 - PI) = - cos 3).
  { pose proof (neg_cos (3 - PI)) as E.
    replace (3 - PI + PI) with 3 in E by ring. lra. }
  replace (sin 3 / cos 3) with (tan (3 - PI)).
  - apply atan_tan. lra.
  - unfold tan. rewrite Hs, Hc. field. lra.
Qed.

Lemma atan2_3 : atan2 (sin 3) (cos 3) = 3.
Proof.
  pose proof cos_3_neg. pose proof sin_3_pos.
  unfold atan2.
  destruct (Rlt_dec 0 (cos 3)); [lra |].
  destruct (Rlt_dec (cos 3) 0); [| lra].
  destruct (Rle_dec 0 (sin 3)); [| lra].
  rewrite atan_tan_3. ring.
Qed.

(** Wherever the cosine is negative the one-argument arctangent of the
    quotient differs from the two-argument arctangent. *)
Lemma atan_quotient_is_not_atan2 (t : R) :
  cos t < 0 -> atan (sin t / cos t) <> atan2 (sin t) (cos t).
Proof.
  intros Hc. pose proof PI_RGT_0. unfold atan2.
  destruct (Rlt_dec 0 (cos t)); [lra |].
  destruct (Rlt_dec (cos t) 0); [| lra].
  destruct (Rle_dec 0 (sin t)); lra.
Qed.

(** In the default mode the rebound angle is never read: [stepSwingUp]
    returns what [stepPhysics] returns. *)
Lemma stepSwingUp_RK4_is_stepPhysics (env : Env) (s : vec4) (F : R) :
  state env = Some s ->
  kinematics_integrator env = "RK4"%string ->
  cos (c2 s) <> 0 ->
  stepSwingUp env F = stepPhysics env F.
Proof.
  intros Hs Hm Hc.
  rewrite (stepSwingUp_RK4 env s F Hs Hm Hc).
  rewrite (stepPhysics_RK4 env s F Hs Hm). reflexivity.
Qed.

(** C4.  The angle is rebound to [atan (sin theta / cos theta)], not to
    [atan2 (sin theta) (cos theta)].  In ["euler"] mode, from the stored
    state [(0, 0, 3, 0)] with zero force, [stepSwingUp] returns the angle
    [3 - PI] where [stepPhysics] returns [3], the value of the two-argument
    arctangent.  In the default mode the stored angle [7] comes back as
    [7], outside [[-PI, PI]].  At the stored angle [PI / 2] the division
    by the cosine raises. *)
Theorem swingup_rewrap_is_atan_of_quotient :
  let euler_env := mkEnv (Some (V4 0 0 3 0)) None "euler" in
  let rk4_env := mkEnv (Some (V4 0 0 7 0)) None "RK4" in
  let half_pi_env := mkEnv (Some (V4 0 0 (PI / 2) 0)) None "RK4" in
  (exists s', stepSwingUp euler_env 0 = Ok s' /\ c2 s' = 3 - PI) /\
  (exists s', stepPhysics euler_env 0 = Ok s' /\ c2 s' = 3) /\
  atan2 (sin 3) (cos 3) = 3 /\
  (exists s', stepSwingUp rk4_env 0 = Ok s' /\ c2 s' = 7 /\ PI < c2 s') /\
  stepSwingUp half_pi_env 0 = Raise ZeroDivisionError.
Proof.
  intros euler_env rk4_env half_pi_env.
  pose proof cos_3_neg as Hc3. pose proof PI_4 as Hpi.
  repeat split.
  - unfold stepSwingUp, euler_env. cbn [state kinematics_integrator].
    destruct (Req_dec_T (cos 3) 0) as [E | _]; [lra |].
    cbn. eexists. split; [reflexivity |]. cbn.
    rewrite atan_tan_3. ring.
  - unfold stepPhysics, euler_env. cbn. eexists. split; [reflexivity |].
    cbn. ring.
  - apply atan2_3.
  - assert (Hc : cos 7 <> 0).
    { pose proof PI_gt_3.
      assert (E : cos 7 = cos (7 - 2 * PI)).
      { rewrite <- (cos_period (7 - 2 * PI) 1). simpl INR. f_equal. ring. }
      assert (0 < cos (7 - 2 * PI)) by (apply cos_gt_0; lra).
      lra. }
    exists (euler_update derivative tau (V4 0 0 7 0) 0).
    split; [| split].
    + apply stepSwingUp_RK4; [reflexivity | reflexivity | exact Hc].
    + cbn. ring.
    + cbn. lra.
  - apply (stepSwingUp_zero_cos _ (V4 0 0 (PI / 2) 0)); [reflexivity |].
    cbn. apply cos_PI2.
Qed.

(** ** Flags, reward and observation of [step] *)

Lemma Rltb_true_iff (a b : R) : Rltb a b = true <-> a < b.
Proof.
  unfold Rltb. destruct (Rlt_dec a b); split; intros; try discriminate;
    try reflexivity; try assumption; contradiction.
Qed.

Lemma Rgtb_true_iff (a b : R) : Rgtb a b = true <-> a > b.
Proof.
  unfold Rgtb. destruct (Rgt_dec a b); split; intros; try discriminate;
    try reflexivity; try assumption; contradiction.
Qed.

(** [step] returns exactly when the integrator does. *)
Lemma step_returns (env : Env) (action : R) (s : vec4) :
  state env = Some s ->
  cos (c2 s) <> 0 ->
  exists out env', step env action = Ok (out, env').
Proof.
  intros Hs Hc.
  destruct (stepSwingUp_returns env s (force_of_action action) Hs Hc)
    as [s' Hs'].
  destruct (step_after_integration env action s' Hs') as (out & env' & H & _).
  exists out, env'. exact H.
Qed.

(** C5.  On an initialised simulator (whose stored angle has a non-zero
    cosine, so that the integrator returns) [step] returns; its flags are
    [terminated = (|theta| < theta_threshold / 4)] and
    [off_track = (|x| > x_threshold)] of the state the integrator returned,
    and its reward is 1000 when neither flag holds, -1000 when only
    [off_track] holds, 100 when [terminated] holds and the counter is unset
    (the counter becomes 0), and 1000 when [terminated] holds and the counter
    is set (the counter grows by one). *)
Theorem step_flags_and_reward (env : Env) (action : R) (s : vec4) :
  state env = Some s ->
  cos (c2 s) <> 0 ->
  exists s' out env',
    stepSwingUp env (force_of_action action) = Ok s' /\
    step env action = Ok (out, env') /\
    state env' = Some s' /\
    (terminated out = true <->
       Rabs (c2 s') < theta_threshold_radians / 4) /\
    (off_track out = true <-> Rabs (c0 s') > x_threshold) /\
    (terminated out = false -> off_track out = false ->
       reward out = 1000 /\
       steps_beyond_terminated env' = steps_beyond_terminated env) /\
    (terminated out = false -> off_track out = true ->
       reward out = -1000 /\
       steps_beyond_terminated env' = steps_beyond_terminated env) /\
    (terminated out = true -> steps_beyond_terminated env = None ->
       reward out = 100 /\ steps_beyond_terminated env' = Some 0%Z) /\
    (terminated out = true ->
     forall n, steps_beyond_terminated env = Some n ->
       reward out = 1000 /\
       steps_beyond_terminated env' = Some (n + 1)%Z).
Proof.
  intros Hs Hc.
  destruct (stepSwingUp_returns env s (force_of_action action) Hs Hc)
    as [s' Hs'].
  destruct (step_after_integration env action s' Hs')
    as (out & env' & Hstep & Hst & _ & _ & Ht & Ho & Hn & Hf & Hl).
  exists s', out, env'.
  split; [exact Hs' |]. split; [exact Hstep |]. split; [exact Hst |].
  split; [rewrite Ht; apply Rltb_true_iff |].
  split; [rewrite Ho; apply Rgtb_true_iff |].
  split; [| split; [| split]].
  - intros T O. destruct (Hn T) as (Hr & Hk & _). rewrite O in Hr. tauto.
  - intros T O. destruct (Hn T) as (Hr & Hk & _). rewrite O in Hr. tauto.
  - intros T N. destruct (Hf T N) as (Hr & Hk & _). tauto.
  - intros T n N. destruct (Hl T n N) as (Hr & Hk & _). tauto.
Qed.

Lemma step_flags_and_reward_witness :
  let s := V4 0 1 0 0 in
  let env := mkEnv (Some s) None "RK4" in
  state env = Some s /\
  cos (c2 s) <> 0 /\
  exists s' out env',
    stepSwingUp env (force_of_action 0.5) = Ok s' /\
    step env 0.5 = Ok (out, env') /\
    state env' = Some s' /\
    (terminated out = true <->
       Rabs (c2 s') < theta_threshold_radians / 4) /\
    (off_track out = true <-> Rabs (c0 s') > x_threshold) /\
    (terminated out = false -> off_track out = false ->
       reward out = 1000 /\
       steps_beyond_terminated env' = steps_beyond_terminated env) /\
    (terminated out = false -> off_track out = true ->
       reward out = -1000 /\
       steps_beyond_terminated env' = steps_beyond_terminated env) /\
    (terminated out = true -> steps_beyond_terminated env = None ->
       reward out = 100 /\ steps_beyond_terminated env' = Some 0%Z) /\
    (terminated out = true ->
     forall n, steps_beyond_terminated env = Some n ->
       reward out = 1000 /\
       steps_beyond_terminated env' = Some (n + 1)%Z).
Proof.
  intros s env.
  assert (Hc : cos (c2 s) <> 0) by (simpl; rewrite cos_0; lra).
  split; [reflexivity |]. split; [exact Hc |].
  apply (step_flags_and_reward env 0.5 s); [reflexivity | exact Hc].
Defined.

(** ** [reset] *)

Lemma parsed_bounds_ordered (options : option ResetOptions) (low high : R) :
  maybe_parse_reset_bounds options (-0.08) 0.08 = Ok (low, high) ->
  low <= high.
Proof.
  unfold maybe_parse_reset_bounds. destruct options as [o |].
  - destruct (Rgt_dec _ _) as [G | G]; [discriminate |].
    intros E. injection E as <- <-. lra.
  - intros E. injection E as <- <-. lra.
Qed.

Lemma reset_returns (env : Env) (options : option ResetOptions) (u : vec4)
    (low high : R) :
  maybe_parse_reset_bounds options (-0.08) 0.08 = Ok (low, high) ->
  let r := uniform low high u in
  let s := V4 (c0 r) (c1 r) (c2 r - PI) (c3 r) in
  reset env options u =
    Ok (O5 (sin (c2 s)) (cos (c2 s)) (c3 s) (c0 s) (c1 s),
        mkEnv (Some s) None (kinematics_integrator env)).
Proof.
  intros Hb r s. unfold reset. rewrite Hb. cbn [bind].
  fold r.
  assert (E : vsub r (V4 0 0 PI 0) = s).
  { apply vec4_eq; cbn; ring. }
  rewrite E. reflexivity.
Qed.

Lemma uniform_component_bounds (low high t : R) :
  low <= high -> 0 <= t <= 1 ->
  low <= low + (high - low) * t <= high.
Proof. intros H [H0 H1]. split; nra. Qed.

(** C9.  The observation [step] returns is
    [(x, x_dot, cos theta, sin theta, theta_dot)] of the state the
    integrator returned, which [step] stores.  The observation [reset]
    returns, on any object, reset before or not, is
    [(sin theta, cos theta, theta_dot, x, x_dot)] of the freshly sampled
    state [(r0, r1, r2 - PI, r3)], which [reset] stores. *)
Theorem observation_orderings
    (env : Env) (action : R) (s : vec4)
    (renv : Env) (options : option ResetOptions) (u : vec4) (low high : R) :
  state env = Some s ->
  cos (c2 s) <> 0 ->
  maybe_parse_reset_bounds options (-0.08) 0.08 = Ok (low, high) ->
  (exists s' out env',
     stepSwingUp env (force_of_action action) = Ok s' /\
     step env action = Ok (out, env') /\
     state env' = Some s' /\
     obs out = O5 (c0 s') (c1 s') (cos (c2 s')) (sin (c2 s')) (c3 s')) /\
  (exists o renv',
     reset renv options u = Ok (o, renv') /\
     let r := uniform low high u in
     let s0 := V4 (c0 r) (c1 r) (c2 r - PI) (c3 r) in
     state renv' = Some s0 /\
     o = O5 (sin (c2 s0)) (cos (c2 s0)) (c3 s0) (c0 s0) (c1 s0)).
Proof.
  intros Hs Hc Hb. split.
  - destruct (stepSwingUp_returns env s (force_of_action action) Hs Hc)
      as [s' Hs'].
    destruct (step_after_integration env action s' Hs')
      as (out & env' & Hstep & Hst & _ & Hobs & _).
    exists s', out, env'. tauto.
  - pose proof (reset_returns renv options u low high Hb) as Hr.
    cbv zeta in Hr. do 2 eexists. split; [exact Hr |].
    cbv zeta. split; reflexivity.
Qed.

Lemma observation_orderings_witness :
  let s := V4 0 1 0 0 in
  let env := mkEnv (Some s) None "RK4" in
  let u := V4 0 0.25 0.5 1 in
  state env = Some s /\
  cos (c2 s) <> 0 /\
  maybe_parse_reset_bounds None (-0.08) 0.08 = Ok (-0.08, 0.08) /\
  (exists s' out env',
     stepSwingUp env (force_of_action 0.5) = Ok s' /\
     step env 0.5 = Ok (out, env') /\
     state env' = Some s' /\
     obs out = O5 (c0 s') (c1 s') (cos (c2 s')) (sin (c2 s')) (c3 s')) /\
  (exists o renv',
     reset init None u = Ok (o, renv') /\
     let r := uniform (-0.08) 0.08 u in
     let s0 := V4 (c0 r) (c1 r) (c2 r - PI) (c3 r) in
     state renv' = Some s0 /\
     o = O5 (sin (c2 s0)) (cos (c2 s0)) (c3 s0) (c0 s0) (c1 s0)).
Proof.
  intros s env u.
  assert (Hc : cos (c2 s) <> 0) by (simpl; rewrite cos_0; lra).
  split; [reflexivity |]. split; [exact Hc |]. split; [reflexivity |].
  apply (observation_orderings env 0.5 s init None u (-0.08) 0.08);
    [reflexivity | exact Hc | reflexivity].
Defined.

(** C8.  [reset] parses its bounds (by default -0.08 and 0.08), turns the
    four unit draws [u] of the generator into the raw components
    [r_i = low + (high - low) * u_i], each within [[low, high]] and each a
    function of its own draw only, stores [(r0, r1, r2 - PI, r3)] as the new
    state and clears the counter. *)
Theorem reset_samples_and_shifts_angle
    (env : Env) (options : option ResetOptions) (u : vec4) (low high : R) :
  maybe_parse_reset_bounds options (-0.08) 0.08 = Ok (low, high) ->
  0 <= c0 u <= 1 -> 0 <= c1 u <= 1 -> 0 <= c2 u <= 1 -> 0 <= c3 u <= 1 ->
  maybe_parse_reset_bounds None (-0.08) 0.08 = Ok (-0.08, 0.08) /\
  exists r0 r1 r2 r3 o env',
    r0 = low + (high - low) * c0 u /\ low <= r0 <= high /\
    r1 = low + (high - low) * c1 u /\ low <= r1 <= high /\
    r2 = low + (high - low) * c2 u /\ low <= r2 <= high /\
    r3 = low + (high - low) * c3 u /\ low <= r3 <= high /\
    reset env options u = Ok (o, env') /\
    state env' = Some (V4 r0 r1 (r2 - PI) r3) /\
    steps_beyond_terminated env' = None.
Proof.
  intros Hb H0 H1 H2 H3. split; [reflexivity |].
  pose proof (parsed_bounds_ordered options low high Hb) as Hle.
  pose proof (reset_returns env options u low high Hb) as Hr.
  cbv zeta in Hr.
  exists (low + (high - low) * c0 u), (low + (high - low) * c1 u),
         (low + (high - low) * c2 u), (low + (high - low) * c3 u).
  do 2 eexists.
  repeat match goal with
         | |- _ = _ /\ _ => split; [reflexivity |]
         | |- _ <= _ <= _ /\ _ =>
             split; [apply uniform_component_bounds; assumption |]
         end.
  split; [exact Hr |]. split; reflexivity.
Qed.

Lemma reset_samples_and_shifts_angle_witness :
  let u := V4 0 0.25 0.5 1 in
  let low := -0.08 in
  let high := 0.08 in
  maybe_parse_reset_bounds None (-0.08) 0.08 = Ok (low, high) /\
  0 <= c0 u <= 1 /\ 0 <= c1 u <= 1 /\ 0 <= c2 u <= 1 /\ 0 <= c3 u <= 1 /\
  maybe_parse_reset_bounds None (-0.08) 0.08 = Ok (-0.08, 0.08) /\
  exists r0 r1 r2 r3 o env',
    r0 = low + (high - low) * c0 u /\ low <= r0 <= high /\
    r1 = low + (high - low) * c1 u /\ low <= r1 <= high /\
    r2 = low + (high - low) * c2 u /\ low <= r2 <= high /\
    r3 = low + (high - low) * c3 u /\ low <= r3 <= high /\
    reset init None u = Ok (o, env') /\
    state env' = Some (V4 r0 r1 (r2 - PI) r3) /\
    steps_beyond_terminated env' = None.
Proof.
  intros u low high.
  split; [reflexivity |].
  split; [simpl; lra |]. split; [simpl; lra |].
  split; [simpl; lra |]. split; [simpl; lra |].
  apply (reset_samples_and_shifts_angle init None u low high);
    try reflexivity; simpl; lra.
Defined.

(** ** Episodes *)

(** Every returning call of [step] went through the integrator. *)
Lemma step_inversion (env : Env) (action : R) (out : StepReturn) (env' : Env) :
  step env action = Ok (out, env') ->
  exists s', stepSwingUp env (force_of_action action) = Ok s'.
Proof.
  intros H.
  destruct (stepSwingUp env (force_of_action action)) as [s' | e] eqn:Hs.
  - exists s'. reflexivity.
  - rewrite (step_raises_with_integrator env action e Hs) in H. discriminate.
Qed.

(** The effect of one returning [step] on reward, counter and warnings. *)
Lemma step_transition (env : Env) (action : R) (out : StepReturn) (env' : Env) :
  step env action = Ok (out, env') ->
  (terminated out = false ->
     reward out = (if off_track out then -1000 else 1000)) /\
  (terminated out = true ->
     reward out = (if counter_set env then 1000 else 100)) /\
  counter_set env' = counter_set env || terminated out /\
  (counter_ok env -> counter_ok env') /\
  terminal_steps_seen env' =
    (terminal_steps_seen env + bool_to_Z (terminated out))%Z /\
  (counter_ok env ->
   warnings out =
     if terminated out && Z.eqb (terminal_steps_seen env) 1
     then [warn_msg] else []).
Proof.
  intros H. destruct (step_inversion env action out env' H) as [s' Hs'].
  destruct (step_after_integration env action s' Hs')
    as (out1 & env1 & Hstep & _ & _ & _ & _ & _ & Hn & Hf & Hl).
  rewrite H in Hstep. injection Hstep as <- <-.
  unfold counter_set, terminal_steps_seen, counter_ok.
  destruct (terminated out) eqn:T.
  - destruct (steps_beyond_terminated env) as [n |] eqn:N.
    + destruct (Hl eq_refl n eq_refl) as (Hr & Hk & Hw). rewrite Hk.
      split; [discriminate |]. split; [intros _; exact Hr |].
      split; [reflexivity |].
      split; [intros W m E; injection E as <-;
              specialize (W n eq_refl); lia |].
      split; [reflexivity |].
      intros W. specialize (W n eq_refl). rewrite Hw. cbn [andb].
      destruct (Z.eqb_spec n 0), (Z.eqb_spec (n + 1) 1);
        try reflexivity; lia.
    + destruct (Hf eq_refl eq_refl) as (Hr & Hk & Hw). rewrite Hk.
      split; [discriminate |]. split; [intros _; exact Hr |].
      split; [reflexivity |].
      split; [intros _ m E; injection E as <-; lia |].
      split; [reflexivity |].
      intros _. rewrite Hw. reflexivity.
  - destruct (Hn eq_refl) as (Hr & Hk & Hw). rewrite Hk.
    split; [intros _; exact Hr |]. split; [discriminate |].
    split; [rewrite orb_false_r; reflexivity |].
    split; [tauto |].
    split; [unfold bool_to_Z; lia |].
    intros _. rewrite Hw. reflexivity.
Qed.

Lemma run_cons (env : Env) (a : R) (rest : list R)
    (outs : list StepReturn) (env' : Env) :
  run env (a :: rest) = Ok (outs, env') ->
  exists o env1 outs1,
    step env a = Ok (o, env1) /\
    run env1 rest = Ok (outs1, env') /\
    outs = o :: outs1.
Proof.
  cbn [run]. intros H.
  destruct (step env a) as [[o env1] | e] eqn:Hs; [| discriminate].
  cbn [bind] in H.
  destruct (run env1 rest) as [[outs1 env2] | e] eqn:Hr; [| discriminate].
  cbn [bind] in H. injection H as <- <-.
  exists o, env1, outs1. repeat split; [exact Hr].
Qed.

(** Reward of the [i]-th call of an episode that starts from any object. *)
Lemma run_rewards (actions : list R) :
  forall env outs env' i out,
    run env actions = Ok (outs, env') ->
    nth_error outs i = Some out ->
    (terminated out = false ->
       reward out = (if off_track out then -1000 else 1000)) /\
    (terminated out = true ->
       reward out =
         (if counter_set env || existsb terminated (firstn i outs)
          then 1000 else 100)).
Proof.
  induction actions as [| a rest IH]; intros env outs env' i out Hrun Hnth.
  - injection Hrun as <- <-. destruct i; discriminate.
  - destruct (run_cons env a rest outs env' Hrun)
      as (o & env1 & outs1 & Hstep & Hrest & ->).
    destruct (step_transition env a o env1 Hstep)
      as (Hn & Ht & Hc & _).
    destruct i as [| j].
    + injection Hnth as <-. cbn [firstn existsb].
      rewrite orb_false_r. split; assumption.
    + cbn [nth_error] in Hnth.
      destruct (IH env1 outs1 env' j out Hrest Hnth) as [IHn IHt].
      split; [exact IHn |].
      intros T. rewrite (IHt T), Hc. cbn [firstn existsb].
      rewrite orb_assoc. reflexivity.
Qed.

(** Warnings of the [i]-th call of an episode. *)
Lemma run_warnings (actions : list R) :
  forall env outs env' i out,
    counter_ok env ->
    run env actions = Ok (outs, env') ->
    nth_error outs i = Some out ->
    warnings out =
      if terminated out
         && Z.eqb (terminal_steps_seen env + terminal_count (firstn i outs)) 1
      then [warn_msg] else [].
Proof.
  induction actions as [| a rest IH]; intros env outs env' i out Hok Hrun Hnth.
  - injection Hrun as <- <-. destruct i; discriminate.
  - destruct (run_cons env a rest outs env' Hrun)
      as (o & env1 & outs1 & Hstep & Hrest & ->).
    destruct (step_transition env a o env1 Hstep)
      as (_ & _ & _ & Hok1 & Hseen & Hw).
    destruct i as [| j].
    + injection Hnth as <-. cbn [firstn terminal_count].
      rewrite Z.add_0_r. apply Hw, Hok.
    + cbn [nth_error] in Hnth.
      rewrite (IH env1 outs1 env' j out (Hok1 Hok) Hrest Hnth).
      rewrite Hseen. cbn [firstn terminal_count].
      rewrite Z.add_assoc. reflexivity.
Qed.

(** An episode warns at most once, and not at all once the counter has
    passed zero. *)
Lemma run_warning_count (actions : list R) :
  forall env outs env',
    counter_ok env ->
    run env actions = Ok (outs, env') ->
    (warning_count outs
     <= if Z.leb (terminal_steps_seen env) 1 then 1 else 0)%nat.
Proof.
  induction actions as [| a rest IH]; intros env outs env' Hok Hrun.
  - injection Hrun as <- <-. cbn. destruct (Z.leb _ _); lia.
  - destruct (run_cons env a rest outs env' Hrun)
      as (o & env1 & outs1 & Hstep & Hrest & ->).
    destruct (step_transition env a o env1 Hstep)
      as (_ & _ & _ & Hok1 & Hseen & Hw).
    specialize (IH env1 outs1 env' (Hok1 Hok) Hrest).
    unfold warning_count in *. cbn [map concat].
    rewrite length_app, (Hw Hok). rewrite Hseen in IH.
    destruct (terminated o); unfold bool_to_Z in IH; cbn [andb].
    + destruct (Z.eqb_spec (terminal_steps_seen env) 1) as [E | E];
        cbn [List.length];
        destruct (Z.leb_spec (terminal_steps_seen env + 1) 1),
                 (Z.leb_spec (terminal_steps_seen env) 1); lia.
    + cbn [List.length]. rewrite Z.add_0_r in IH. lia.
Qed.

(** Right after a call that returned [terminated = true] the stored angle
    is within the threshold, its cosine is positive, and the next call
    returns. *)
Lemma step_after_terminal_returns
    (env : Env) (a : R) (out : StepReturn) (env1 : Env) :
  step env a = Ok (out, env1) ->
  terminated out = true ->
  forall a', exists out' env2, step env1 a' = Ok (out', env2).
Proof.
  intros H T a'.
  destruct (step_inversion env a out env1 H) as [s' Hs'].
  destruct (step_after_integration env a s' Hs')
    as (out1 & env1' & Hstep & Hst & _ & _ & Ht & _).
  rewrite H in Hstep. injection Hstep as <- <-.
  rewrite T in Ht. symmetry in Ht. apply Rltb_true_iff in Ht.
  apply (step_returns env1 a' s' Hst).
  assert (0 < cos (c2 s')); [| lra].
  pose proof PI2_1.
  unfold theta_threshold_radians in Ht.
  destruct (Rabs_def2 _ _ Ht) as [Hu Hl].
  apply cos_gt_0; lra.
Qed.

(** ** A pole that passes through the upright window *)

Lemma force_of_action_0 : force_of_action 0 = 0.
Proof.
  unfold force_of_action, clip, max_action, force_mag.
  rewrite Rmax_left by lra. rewrite Rmin_left by lra. lra.
Qed.

Lemma passing_trace :
  exists o1 o2 env2,
    run passing_env [0; 0] = Ok ([o1; o2], env2) /\
    terminated o1 = true /\ reward o1 = 100 /\ warnings o1 = [] /\
    terminated o2 = false /\ off_track o2 = true /\
    reward o2 = -1000 /\ warnings o2 = [].
Proof.
  set (s0 := V4 0.3 0 0 4).
  set (s1 := euler_update derivative tau s0 0).
  set (s2 := euler_update derivative tau s1 0).
  pose proof (xacc_of_scaled 0 4 0 1 0) as Ea.
  pose proof (thetaacc_of_scaled 0 4 0 1 0) as Eb.
  set (a := xacc_of 0 4 0 1 0) in *.
  set (b := thetaacc_of 0 4 0 1 0) in *.
  assert (Ha : -1 < a < 0) by (unfold_constants; lra).
  assert (Hb : -1 < b < 0) by (unfold_constants; lra).
  clear Ea Eb.
  assert (H1x : c0 s1 = 0.3) by (cbn; ring).
  assert (H1v : c1 s1 = tau * a)
    by (cbn; rewrite sin_0, cos_0; fold a; ring).
  assert (H1t : c2 s1 = 0.04) by (cbn; unfold tau, fps; lra).
  assert (H1w : c3 s1 = 4 + tau * b)
    by (cbn; rewrite sin_0, cos_0; fold b; ring).
  assert (H2x : c0 s2 = c0 s1 + tau * c1 s1) by (destruct s1; reflexivity).
  assert (H2t : c2 s2 = c2 s1 + tau * c3 s1) by (destruct s1; reflexivity).
  assert (Hc0 : cos (c2 s0) <> 0) by (cbn; rewrite cos_0; lra).
  assert (Hc1 : cos (c2 s1) <> 0).
  { rewrite H1t. pose proof PI2_1.
    assert (0 < cos 0.04) by (apply cos_gt_0; lra). lra. }
  (* first call *)
  assert (I1 : stepSwingUp passing_env (force_of_action 0) = Ok s1).
  { rewrite force_of_action_0.
    apply stepSwingUp_RK4; [reflexivity | reflexivity | exact Hc0]. }
  destruct (step_after_integration passing_env 0 s1 I1)
    as (o1 & env1 & Hstep1 & Hst1 & Hm1 & _ & Ht1 & _ & _ & Hf1 & _).
  assert (T1 : terminated o1 = true).
  { rewrite Ht1. apply Rltb_true_iff. rewrite H1t.
    unfold theta_threshold_radians. apply Rabs_def1; lra. }
  destruct (Hf1 T1 eq_refl) as (Hr1 & _ & Hw1).
  (* second call *)
  assert (I2 : stepSwingUp env1 (force_of_action 0) = Ok s2).
  { rewrite force_of_action_0.
    apply stepSwingUp_RK4; [exact Hst1 | exact Hm1 | exact Hc1]. }
  destruct (step_after_integration env1 0 s2 I2)
    as (o2 & env2 & Hstep2 & _ & _ & _ & Ht2 & Ho2 & Hn2 & _).
  assert (T2 : terminated o2 = false).
  { rewrite Ht2. destruct (Rltb (Rabs (c2 s2)) _) eqn:E; [| reflexivity].
    apply Rltb_true_iff in E. rewrite H2t, H1t, H1w in E.
    unfold theta_threshold_radians, tau, fps in E.
    rewrite Rabs_pos_eq in E; lra. }
  assert (O2 : off_track o2 = true).
  { rewrite Ho2. apply Rgtb_true_iff. rewrite H2x, H1x, H1v.
    unfold x_threshold, tau, fps. rewrite Rabs_pos_eq; lra. }
  destruct (Hn2 T2) as (Hr2 & _ & Hw2). rewrite O2 in Hr2.
  exists o1, o2, env2.
  split.
  { cbn [run]. rewrite Hstep1. cbn [bind]. rewrite Hstep2. reflexivity. }
  tauto.
Qed.

(** ** A pole that leaves the upright window and comes back *)

Lemma force_of_action_m1 : force_of_action (-1) = -10.
Proof.
  unfold force_of_action, clip, max_action, force_mag.
  rewrite Rmax_left by lra. rewrite Rmin_left by lra. lra.
Qed.

Lemma euler_update_components (s : vec4) (F : R) :
  let s' := euler_update derivative tau s F in
  c0 s' = c0 s + tau * c1 s /\
  c1 s' = c1 s + tau * xacc_of (c1 s) (c3 s) (sin (c2 s)) (cos (c2 s)) F /\
  c2 s' = c2 s + tau * c3 s /\
  c3 s' = c3 s + tau * thetaacc_of (c1 s) (c3 s) (sin (c2 s)) (cos (c2 s)) F.
Proof. destruct s. cbn. repeat split; reflexivity. Qed.

Lemma small_angle (t : R) :
  0 < t < 0.06 -> 0 < sin t < t /\ 0.99 < cos t <= 1.
Proof.
  intros [H0 H1]. pose proof PI2_1 as Hpi.
  assert (Hs0 : 0 < sin t) by (apply sin_gt_0; lra).
  assert (Hs1 : sin t < t) by (apply sin_lt_x; lra).
  assert (Hc0 : 0 < cos t) by (apply cos_gt_0; lra).
  pose proof (COS_bound t) as [_ Hc1].
  pose proof (sin2_cos2 t) as E. unfold Rsqr in E.
  repeat split; try assumption. nra.
Qed.

Lemma scaled_lt (a c n hi : R) : a * c = n -> 0 < c -> n < hi * c -> a < hi.
Proof. intros E Hc Hn. nra. Qed.

Lemma scaled_gt (a c n lo : R) : a * c = n -> 0 < c -> lo * c < n -> lo < a.
Proof. intros E Hc Hn. nra. Qed.

Lemma returning_trace :
  exists o1 o2 o3 env3,
    run returning_env [0; -1; 0] = Ok ([o1; o2; o3], env3) /\
    terminated o1 = true /\ warnings o1 = [] /\
    terminated o2 = false /\ warnings o2 = [] /\
    terminated o3 = true /\ warnings o3 = [warn_msg].
Proof.
  set (s0 := V4 0 0 0.0495 0.04).
  set (s1 := euler_update derivative tau s0 0).
  set (s2 := euler_update derivative tau s1 (-10)).
  set (s3 := euler_update derivative tau s2 0).
  destruct (euler_update_components s0 0) as (_ & E1v & E1t & E1w).
  destruct (euler_update_components s1 (-10)) as (_ & _ & E2t & E2w).
  destruct (euler_update_components s2 0) as (_ & _ & E3t & _).
  fold s1 in E1v, E1t, E1w, E2t, E2w. fold s2 in E2t, E2w, E3t.
  fold s3 in E3t.
  cbn [c0 c1 c2 c3 s0] in E1v, E1t, E1w.
  (* the angles and rates after the first call *)
  destruct (small_angle 0.0495) as [[Hsn0 Hsn0'] [Hcs0 Hcs0']]; [lra |].
  pose proof (xacc_of_scaled 0 0.04 (sin 0.0495) (cos 0.0495) 0) as Ea0.
  pose proof (thetaacc_of_scaled 0 0.04 (sin 0.0495) (cos 0.0495) 0) as Eb0.
  pose proof (denominator_pos (sin 0.0495)) as HD0.
  set (sn0 := sin 0.0495) in *. set (cs0 := cos 0.0495) in *.
  set (a0 := xacc_of 0 0.04 sn0 cs0 0) in *.
  set (b0 := thetaacc_of 0 0.04 sn0 cs0 0) in *.
  assert (Hp0 : 0 <= cs0 * sn0 <= 0.0495) by nra.
  assert (Hq0 : 0 <= sn0 ^ 2 <= 0.0025) by nra.
  assert (Ha0 : -1 < a0 < 1 /\ -3 < b0 < 2).
  { set (p := cs0 * sn0) in *. set (q := sn0 ^ 2) in *.
    assert (K0 : 0 < Rm * length * (d + 3 * r_mp ^ 2 * masspole * q))
      by (apply Rmult_lt_0_compat; [unfold Rm, length; lra | exact HD0]).
    assert (K0' : 0 < Rm * length ^ 2 * masspole
                        * (d + 3 * r_mp ^ 2 * masspole * q))
      by (apply Rmult_lt_0_compat;
          [unfold Rm, length, masspole; lra | exact HD0]).
    replace (3 * masspole * gravity * r_mp ^ 2 * cs0 * sn0 * Rm * length)
      with (3 * masspole * gravity * r_mp ^ 2 * Rm * length * p) in Ea0
      by (unfold p; ring).
    replace (3 * masspole ^ 2 * r_mp ^ 2 * sn0 * cs0 * length ^ 2 * Rm
             * 0.04 ^ 2)
      with (3 * masspole ^ 2 * r_mp ^ 2 * length ^ 2 * Rm * 0.04 ^ 2 * p)
      in Eb0 by (unfold p; ring).
    repeat split.
    - apply (scaled_gt _ _ _ _ Ea0 K0). unfold_constants. lra.
    - apply (scaled_lt _ _ _ _ Ea0 K0). unfold_constants. lra.
    - apply (scaled_gt _ _ _ _ Eb0 K0'). unfold_constants. lra.
    - apply (scaled_lt _ _ _ _ Eb0 K0'). unfold_constants. lra. }
  destruct Ha0 as [Ha0 Hb0].
  clear Ea0 Eb0 HD0 Hp0 Hq0.
  assert (H1t : c2 s1 = 0.0499) by (rewrite E1t; unfold tau, fps; lra).
  assert (H1v : -0.01 < c1 s1 < 0.01) by (rewrite E1v; unfold tau, fps; lra).
  assert (H1w : 0.01 < c3 s1 < 0.06) by (rewrite E1w; unfold tau, fps; lra).
  (* the angular acceleration during the second call *)
  destruct (small_angle (c2 s1)) as [[Hsn1 Hsn1'] [Hcs1 Hcs1']];
    [rewrite H1t; lra |].
  pose proof (thetaacc_of_scaled (c1 s1) (c3 s1) (sin (c2 s1)) (cos (c2 s1))
                (-10)) as Eb1.
  pose proof (denominator_pos (sin (c2 s1))) as HD1.
  set (b1 := thetaacc_of (c1 s1) (c3 s1) (sin (c2 s1)) (cos (c2 s1)) (-10))
    in *.
  assert (Hb1 : -1000 < b1 < -11).
  { assert (Hsb : sin (c2 s1) < 0.05) by lra.
    set (sn1 := sin (c2 s1)) in *. set (cs1 := cos (c2 s1)) in *.
    set (v := c1 s1) in *. set (w := c3 s1) in *.
    assert (Hp1 : -0.01 <= cs1 * v <= 0.01)
      by (clear - Hcs1 Hcs1' H1v; nra).
    assert (Hw2 : 0 <= w ^ 2 <= 0.0036) by (clear - H1w; nra).
    assert (Hsc : 0 <= sn1 * cs1 <= 0.05)
      by (clear - Hsn1 Hsb Hcs1 Hcs1'; nra).
    assert (Hp2 : 0 <= sn1 * cs1 * w ^ 2 <= 0.00018)
      by (clear - Hw2 Hsc; nra).
    assert (Hq1 : 0 <= sn1 ^ 2 <= 0.0025) by (clear - Hsn1 Hsb; nra).
    set (p1 := cs1 * v) in *. set (p2 := sn1 * cs1 * w ^ 2) in *.
    set (q := sn1 ^ 2) in *.
    assert (K1 : 0 < Rm * length ^ 2 * masspole
                       * (d + 3 * r_mp ^ 2 * masspole * q))
      by (apply Rmult_lt_0_compat;
          [unfold Rm, length, masspole; lra | exact HD1]).
    replace (-3 * (Rm * r_mp ^ 2 * Beq + Kg ^ 2 * Kt * Km) * cs1 * length
             * masspole * v)
      with (-3 * (Rm * r_mp ^ 2 * Beq + Kg ^ 2 * Kt * Km) * length
            * masspole * p1) in Eb1 by (unfold p1; ring).
    replace (3 * masspole ^ 2 * r_mp ^ 2 * sn1 * cs1 * length ^ 2 * Rm
             * w ^ 2)
      with (3 * masspole ^ 2 * r_mp ^ 2 * length ^ 2 * Rm * p2) in Eb1
      by (unfold p2; ring).
    split.
    - apply (scaled_gt _ _ _ _ Eb1 K1). unfold_constants. lra.
    - apply (scaled_lt _ _ _ _ Eb1 K1). unfold_constants. lra. }
  assert (H2t : 0.05 < c2 s2 < 0.0505)
    by (rewrite E2t, H1t; unfold tau, fps; lra).
  assert (H2w : -10 < c3 s2 < -0.05)
    by (rewrite E2w; unfold tau, fps; lra).
  assert (H3t : -0.05 < c2 s3 < 0.05)
    by (rewrite E3t; unfold tau, fps; lra).
  clear Eb1 HD1.
  pose proof PI2_1 as Hpi.
  assert (Hc0 : cos (c2 s0) <> 0) by (cbn; fold cs0; lra).
  assert (Hc1 : cos (c2 s1) <> 0) by lra.
  assert (Hc2 : cos (c2 s2) <> 0).
  { assert (0 < cos (c2 s2)) by (apply cos_gt_0; lra). lra. }
  (* first call: terminal, counter set to 0 *)
  assert (I1 : stepSwingUp returning_env (force_of_action 0) = Ok s1).
  { rewrite force_of_action_0.
    apply stepSwingUp_RK4; [reflexivity | reflexivity | exact Hc0]. }
  destruct (step_after_integration returning_env 0 s1 I1)
    as (o1 & env1 & Hstep1 & Hst1 & Hm1 & _ & Ht1 & _ & _ & Hf1 & _).
  assert (T1 : terminated o1 = true).
  { rewrite Ht1. apply Rltb_true_iff. rewrite H1t.
    unfold theta_threshold_radians. apply Rabs_def1; lra. }
  destruct (Hf1 T1 eq_refl) as (_ & Hk1 & Hw1).
  (* second call: outside the window, counter unchanged, no warning *)
  assert (I2 : stepSwingUp env1 (force_of_action (-1)) = Ok s2).
  { rewrite force_of_action_m1.
    apply stepSwingUp_RK4; [exact Hst1 | exact Hm1 | exact Hc1]. }
  destruct (step_after_integration env1 (-1) s2 I2)
    as (o2 & env2 & Hstep2 & Hst2 & Hm2 & _ & Ht2 & _ & Hn2 & _).
  assert (T2 : terminated o2 = false).
  { rewrite Ht2.
    destruct (Rltb (Rabs (c2 s2)) _) eqn:E; [| reflexivity].
    apply Rltb_true_iff in E. unfold theta_threshold_radians in E.
    rewrite Rabs_pos_eq in E; lra. }
  destruct (Hn2 T2) as (_ & Hk2 & Hw2).
  (* third call: back inside the window with the counter at 0 *)
  assert (I3 : stepSwingUp env2 (force_of_action 0) = Ok s3).
  { rewrite force_of_action_0.
    apply stepSwingUp_RK4;
      [exact Hst2 | rewrite Hm2, Hm1; reflexivity | exact Hc2]. }
  destruct (step_after_integration env2 0 s3 I3)
    as (o3 & env3 & Hstep3 & _ & _ & _ & Ht3 & _ & _ & _ & Hl3).
  assert (T3 : terminated o3 = true).
  { rewrite Ht3. apply Rltb_true_iff.
    unfold theta_threshold_radians. apply Rabs_def1; lra. }
  assert (Hk : steps_beyond_terminated env2 = Some 0%Z) by congruence.
  destruct (Hl3 T3 0%Z Hk) as (_ & _ & Hw3).
  exists o1, o2, o3, env3.
  split.
  { cbn [run]. rewrite Hstep1. cbn [bind]. rewrite Hstep2. cbn [bind].
    rewrite Hstep3. reflexivity. }
  tauto.
Qed.

(** C6, the claim as stated fails.  In the episode of [passing_env] the
    first call returns [terminated = true] and the call that follows it,
    with no [reset] between them, returns the reward -1000. *)
Lemma reward_after_terminal_can_be_negative :
  exists o1 o2 env2,
    run passing_env [0; 0] = Ok ([o1; o2], env2) /\
    terminated o1 = true /\ reward o1 = 100 /\
    reward o2 = -1000 /\ reward o2 <> 1000.
Proof.
  destruct passing_trace
    as (o1 & o2 & env2 & Hrun & T1 & R1 & _ & _ & _ & R2 & _).
  exists o1, o2, env2. repeat split; try assumption. rewrite R2. lra.
Qed.

(** C6, amended.  In an episode that starts with the counter unset, a call
    that returns [terminated = true] is rewarded 100 when no earlier call of
    the episode returned [terminated = true] and 1000 when one did; a call
    that returns [terminated = false] is rewarded -1000 when [off_track]
    holds and 1000 otherwise, also after a terminal call. *)
Theorem rewards_along_episode
    (env : Env) (actions : list R) (outs : list StepReturn) (env' : Env)
    (i : nat) (out : StepReturn) :
  steps_beyond_terminated env = None ->
  run env actions = Ok (outs, env') ->
  nth_error outs i = Some out ->
  (terminated out = true ->
     reward out =
       if existsb terminated (firstn i outs) then 1000 else 100) /\
  (terminated out = false ->
     reward out = if off_track out then -1000 else 1000).
Proof.
  intros Hn Hrun Hnth.
  destruct (run_rewards actions env outs env' i out Hrun Hnth) as [Hf Ht].
  split; [| exact Hf].
  intros T. rewrite (Ht T). unfold counter_set. rewrite Hn. reflexivity.
Qed.

Lemma rewards_along_episode_witness :
  exists o1 o2 env2,
    steps_beyond_terminated passing_env = None /\
    run passing_env [0; 0] = Ok ([o1; o2], env2) /\
    nth_error [o1; o2] 1 = Some o2 /\
    (terminated o2 = true ->
       reward o2 =
         if existsb terminated (firstn 1 [o1; o2]) then 1000 else 100) /\
    (terminated o2 = false ->
       reward o2 = if off_track o2 then -1000 else 1000).
Proof.
  destruct passing_trace as (o1 & o2 & env2 & Hrun & _).
  exists o1, o2, env2.
  split; [reflexivity |]. split; [exact Hrun |]. split; [reflexivity |].
  apply (rewards_along_episode passing_env [0; 0] [o1; o2] env2 1 o2);
    [reflexivity | exact Hrun | reflexivity].
Defined.

(** C7, the claim as stated fails.  In the episode of [returning_env] the
    first call returns [terminated = true], the first call after it emits
    no warning, and the second call after it emits the warning. *)
Lemma warning_can_skip_first_post_terminal_call :
  exists o1 o2 o3 env3,
    run returning_env [0; -1; 0] = Ok ([o1; o2; o3], env3) /\
    terminated o1 = true /\ warnings o1 = [] /\
    warnings o2 = [] /\ warnings o3 = [warn_msg].
Proof.
  destruct returning_trace
    as (o1 & o2 & o3 & env3 & Hrun & T1 & W1 & _ & W2 & _ & W3).
  exists o1, o2, o3, env3. repeat split; assumption.
Qed.

(** C7, amended.  In an episode that starts with the counter unset, a call
    emits the warning exactly when it returns [terminated = true] and
    exactly one earlier call of the episode did, so the episode emits it at
    most once; every call after a terminal one is rewarded 1000, or -1000
    when it is off the track and not terminal.  The call that follows a
    terminal return always returns, and any call returns when the stored
    state is initialised with a non-zero cosine of the angle, whatever the
    counter. *)
Theorem steps_after_termination
    (env : Env) (actions : list R) (outs : list StepReturn) (env' : Env) :
  steps_beyond_terminated env = None ->
  run env actions = Ok (outs, env') ->
  (forall i out, nth_error outs i = Some out ->
     warnings out =
       if terminated out && Z.eqb (terminal_count (firstn i outs)) 1
       then [warn_msg] else []) /\
  (warning_count outs <= 1)%nat /\
  (forall i out, nth_error outs i = Some out ->
     existsb terminated (firstn i outs) = true ->
     reward out =
       if terminated out then 1000
       else if off_track out then -1000 else 1000) /\
  (forall e a o e1, step e a = Ok (o, e1) -> terminated o = true ->
     forall a', exists o' e2, step e1 a' = Ok (o', e2)) /\
  (forall e a s, state e = Some s -> cos (c2 s) <> 0 ->
     exists o e1, step e a = Ok (o, e1)).
Proof.
  intros Hn Hrun.
  assert (Hok : counter_ok env).
  { intros n E. rewrite Hn in E. discriminate. }
  assert (Hseen : terminal_steps_seen env = 0%Z).
  { unfold terminal_steps_seen. rewrite Hn. reflexivity. }
  split; [| split; [| split; [| split]]].
  - intros i out Hnth.
    rewrite (run_warnings actions env outs env' i out Hok Hrun Hnth).
    rewrite Hseen. reflexivity.
  - pose proof (run_warning_count actions env outs env' Hok Hrun) as H.
    rewrite Hseen in H. exact H.
  - intros i out Hnth Hprev.
    destruct (run_rewards actions env outs env' i out Hrun Hnth) as [Hf Ht].
    destruct (terminated out).
    + rewrite (Ht eq_refl), Hprev, orb_true_r. reflexivity.
    + exact (Hf eq_refl).
  - intros e a o e1. apply step_after_terminal_returns.
  - intros e a s. apply step_returns.
Qed.

Lemma steps_after_termination_witness :
  exists o1 o2 o3 env3,
    steps_beyond_terminated returning_env = None /\
    run returning_env [0; -1; 0] = Ok ([o1; o2; o3], env3) /\
    (forall i out, nth_error [o1; o2; o3] i = Some out ->
       warnings out =
         if terminated out
            && Z.eqb (terminal_count (firstn i [o1; o2; o3])) 1
         then [warn_msg] else []) /\
    (warning_count [o1; o2; o3] <= 1)%nat /\
    (forall i out, nth_error [o1; o2; o3] i = Some out ->
       existsb terminated (firstn i [o1; o2; o3]) = true ->
       reward out =
         if terminated out then 1000
         else if off_track out then -1000 else 1000) /\
    (forall e a o e1, step e a = Ok (o, e1) -> terminated o = true ->
       forall a', exists o' e2, step e1 a' = Ok (o', e2)) /\
    (forall e a s, state e = Some s -> cos (c2 s) <> 0 ->
       exists o e1, step e a = Ok (o, e1)).
Proof.
  destruct returning_trace as (o1 & o2 & o3 & env3 & Hrun & _).
  exists o1, o2, o3, env3.
  split; [reflexivity |]. split; [exact Hrun |].
  apply (steps_after_termination returning_env [0; -1; 0] [o1; o2; o3] env3);
    [reflexivity | exact Hrun].
Defined.

(** * Further properties of the simulator *)

(** ** Actions outside the admissible range *)

Lemma clip_cases (a : R) :
  (a <= -1 /\ clip a (-1) 1 = -1) \/
  (-1 <= a <= 1 /\ clip a (-1) 1 = a) \/
  (1 <= a /\ clip a (-1) 1 = 1).
Proof.
  unfold clip, Rmax. destruct (Rle_dec a (-1)) as [H | H]; unfold Rmin.
  - destruct (Rle_dec (-1) 1); [left; split; [lra | reflexivity] | lra].
  - destruct (Rle_dec a 1).
    + right; left. split; [lra | reflexivity].
    + right; right. split; [lra | reflexivity].
Qed.

Lemma force_of_action_clip (a : R) :
  force_of_action a = force_mag * clip a (-1) 1.
Proof.
  unfold force_of_action, max_action.
  replace (1.0 * a) with a by lra.
  replace (- (1.0)) with (-1) by lra. replace 1.0 with 1 by lra.
  reflexivity.
Qed.

Lemma step_depends_on_force (env : Env) (a b : R) :
  force_of_action a = force_of_action b -> step env a = step env b.
Proof.
  intros E. unfold step. fold (force_of_action a). fold (force_of_action b).
  rewrite E. reflexivity.
Qed.

(** X1.  The force handed to the integrator stays within
    [[-force_mag, force_mag]], it is [force_mag * action] for an action in
    [[-1, 1]], and [step] cannot tell an action from its clipped value: an
    action beyond the range acts as the nearest end of the range. *)
Theorem step_sees_only_the_clipped_action (env : Env) (action : R) :
  - force_mag <= force_of_action action <= force_mag /\
  force_of_action (clip action (-1) 1) = force_of_action action /\
  step env action = step env (clip action (-1) 1) /\
  (clip action (-1) 1 = action <-> -1 <= action <= 1).
Proof.
  assert (E : force_of_action (clip action (-1) 1) = force_of_action action).
  { rewrite !force_of_action_clip. f_equal.
    destruct (clip_cases action) as [[H E1] | [[H E1] | [H E1]]];
      rewrite E1.
    - destruct (clip_cases (-1)) as [[_ ->] | [[_ ->] | [G _]]];
        try reflexivity; lra.
    - exact E1.
    - destruct (clip_cases 1) as [[G _] | [[_ ->] | [_ ->]]];
        try reflexivity; lra. }
  split; [| split; [exact E | split]].
  - rewrite force_of_action_clip. unfold force_mag.
    destruct (clip_cases action) as [[H ->] | [[H ->] | [H ->]]]; lra.
  - apply step_depends_on_force. symmetry. exact E.
  - destruct (clip_cases action) as [[H E1] | [[H E1] | [H E1]]];
      rewrite E1; split; intros; lra.
Qed.

(** ** The equations of motion *)

(** X2.  Every denominator of the two acceleration formulas is positive, for
    every value of the sine: none of the divisions can fail, at any angle. *)
Theorem acceleration_denominators_positive (sintheta : R) :
  let D := d + 3 * r_mp ^ 2 * masspole * sintheta ^ 2 in
  d <= D /\ 0 < D /\ 0 < Rm * D /\ 0 < length * D /\
  0 < length * Rm * D /\ 0 < masspole * length ^ 2 * D.
Proof.
  intros D. pose proof d_pos as Hd.
  assert (HD : d <= D).
  { unfold D. assert (0 <= sintheta ^ 2) by apply pow2_ge_0.
    assert (0 <= 3 * r_mp ^ 2 * masspole) by (unfold r_mp, masspole; lra).
    nra. }
  assert (0 < D) by lra.
  assert (0 < Rm) by (unfold Rm; lra).
  assert (0 < length) by (unfold length; lra).
  assert (0 < masspole) by (unfold masspole; lra).
  assert (0 < length ^ 2) by (unfold length; lra).
  repeat split; try assumption;
    repeat (apply Rmult_lt_0_compat; try assumption).
Qed.

Lemma xacc_of_odd (x_dot theta_dot sn cs force : R) :
  xacc_of (- x_dot) (- theta_dot) (- sn) cs (- force)
  = - xacc_of x_dot theta_dot sn cs force.
Proof.
  pose proof (denominator_pos sn) as HD.
  unfold xacc_of. replace ((- sn) ^ 2) with (sn ^ 2) by ring.
  field. repeat split; nonzero.
Qed.

Lemma thetaacc_of_odd (x_dot theta_dot sn cs force : R) :
  thetaacc_of (- x_dot) (- theta_dot) (- sn) cs (- force)
  = - thetaacc_of x_dot theta_dot sn cs force.
Proof.
  pose proof (denominator_pos sn) as HD.
  unfold thetaacc_of. replace ((- sn) ^ 2) with (sn ^ 2) by ring.
  field. repeat split; nonzero.
Qed.

Lemma derivative_odd (s : vec4) (F : R) :
  derivative (vneg s) (- F) = vneg (derivative s F).
Proof.
  destruct s as [x xd th thd]. unfold derivative, vneg. cbn [c0 c1 c2 c3].
  rewrite sin_neg, cos_neg, xacc_of_odd, thetaacc_of_odd. reflexivity.
Qed.

Lemma force_of_action_odd (a : R) :
  force_of_action (- a) = - force_of_action a.
Proof.
  rewrite !force_of_action_clip. unfold force_mag.
  destruct (clip_cases a) as [[H E] | [[H E] | [H E]]]; rewrite E;
    destruct (clip_cases (- a)) as [[G E'] | [[G E'] | [G E']]]; rewrite E';
    lra.
Qed.

(** X3.  Mirror symmetry of the integrator.  In every integrator mode
    [stepPhysics] returns a state on an initialised object, and negating the
    stored state and the force negates the state it returns. *)
Theorem stepPhysics_mirror
    (s : vec4) (n n' : option Z) (mode : string) (F : R) :
  exists r,
    stepPhysics (mkEnv (Some s) n mode) F = Ok r /\
    stepPhysics (mkEnv (Some (vneg s)) n' mode) (- F) = Ok (vneg r).
Proof.
  destruct s as [x xd th thd].
  unfold stepPhysics, RHS, vneg.
  cbn -[xacc_of thetaacc_of String.eqb].
  rewrite sin_neg, cos_neg, xacc_of_odd, thetaacc_of_odd.
  set (a := xacc_of xd thd (sin th) (cos th) F).
  set (b := thetaacc_of xd thd (sin th) (cos th) F).
  destruct (String.eqb mode "euler"), (String.eqb mode "semi-euler"),
    (String.eqb mode "RK4"); cbn -[a b];
    (eexists; split; [reflexivity |]; f_equal; apply vec4_eq; cbn; field).
Qed.

Lemma stepSwingUp_mirror
    (s : vec4) (n n' : option Z) (mode : string) (F : R) (r : vec4) :
  stepSwingUp (mkEnv (Some s) n mode) F = Ok r ->
  stepSwingUp (mkEnv (Some (vneg s)) n' mode) (- F) = Ok (vneg r).
Proof.
  destruct s as [x xd th thd].
  unfold stepSwingUp, RHS, vneg.
  cbn -[xacc_of thetaacc_of String.eqb Req_dec_T].
  rewrite sin_neg, cos_neg, xacc_of_odd, thetaacc_of_odd.
  destruct (Req_dec_T (cos th) 0) as [E | E]; [discriminate |].
  replace (- sin th / cos th) with (- (sin th / cos th)) by (field; exact E).
  rewrite atan_opp.
  set (a := xacc_of xd thd (sin th) (cos th) F).
  set (b := thetaacc_of xd thd (sin th) (cos th) F).
  set (w := atan (sin th / cos th)).
  destruct (String.eqb mode "euler"), (String.eqb mode "semi-euler"),
    (String.eqb mode "RK4"); cbn -[a b w];
    intros H; injection H as <-; f_equal; apply vec4_eq; cbn; field.
Qed.

(** X4.  Mirror symmetry of [step].  When [step] returns on an initialised
    object, it returns on the mirrored object with the negated action too:
    the new state is the mirror image, the observation is mirrored in all
    components but the cosine, and flags, reward, counter and warnings are
    the same. *)
Theorem step_mirror
    (s : vec4) (n : option Z) (mode : string) (action : R)
    (out : StepReturn) (env1 : Env) (s1 : vec4) :
  step (mkEnv (Some s) n mode) action = Ok (out, env1) ->
  state env1 = Some s1 ->
  exists out',
    step (mkEnv (Some (vneg s)) n mode) (- action)
      = Ok (out', mkEnv (Some (vneg s1)) (steps_beyond_terminated env1) mode) /\
    terminated out' = terminated out /\
    off_track out' = off_track out /\
    reward out' = reward out /\
    warnings out' = warnings out /\
    obs out' = O5 (- o0 (obs out)) (- o1 (obs out)) (o2 (obs out))
                  (- o3 (obs out)) (- o4 (obs out)).
Proof.
  intros Hstep Hs1.
  destruct (step_inversion _ _ _ _ Hstep) as [s' Hs'].
  pose proof (stepSwingUp_mirror s n n mode _ s' Hs') as Hm.
  rewrite <- force_of_action_odd in Hm.
  destruct (step_after_integration _ _ _ Hs')
    as (o & e & H & Hst & Hmode & Hobs & Ht & Ho & Hn & Hf & Hl).
  rewrite Hstep in H. injection H as <- <-.
  rewrite Hst in Hs1. injection Hs1 as <-.
  destruct (step_after_integration _ _ _ Hm)
    as (o' & e' & H' & Hst' & Hmode' & Hobs' & Ht' & Ho' & Hn' & Hf' & Hl').
  assert (T : terminated o' = terminated out).
  { rewrite Ht', Ht. destruct s'; cbn. rewrite Rabs_Ropp. reflexivity. }
  assert (O : off_track o' = off_track out).
  { rewrite Ho', Ho. destruct s'; cbn. rewrite Rabs_Ropp. reflexivity. }
  cbn [steps_beyond_terminated kinematics_integrator] in *.
  assert (K : reward o' = reward out /\ warnings o' = warnings out /\
              steps_beyond_terminated e' = steps_beyond_terminated env1).
  { destruct (terminated out) eqn:E.
    - destruct n as [k |].
      + destruct (Hl eq_refl k eq_refl) as (-> & -> & ->).
        destruct (Hl' T k eq_refl) as (-> & -> & ->). tauto.
      + destruct (Hf eq_refl eq_refl) as (-> & -> & ->).
        destruct (Hf' T eq_refl) as (-> & -> & ->). tauto.
    - destruct (Hn eq_refl) as (-> & -> & ->).
      destruct (Hn' T) as (-> & -> & ->). rewrite O. tauto. }
  destruct K as (Kr & Kw & Kk).
  exists o'. split.
  - rewrite H'. do 2 f_equal. destruct e' as [st k m]. cbn in *.
    subst. reflexivity.
  - repeat split; try assumption.
    rewrite Hobs', Hobs. destruct s'; cbn.
    rewrite sin_neg, cos_neg. reflexivity.
Qed.

Lemma step_mirror_witness :
  exists out env1 s1,
    step (mkEnv (Some (V4 0 1 0 0)) None "RK4") 0.5 = Ok (out, env1) /\
    state env1 = Some s1 /\
    exists out',
      step (mkEnv (Some (vneg (V4 0 1 0 0))) None "RK4") (- (0.5))
        = Ok (out', mkEnv (Some (vneg s1)) (steps_beyond_terminated env1)
                          "RK4") /\
      terminated out' = terminated out /\
      off_track out' = off_track out /\
      reward out' = reward out /\
      warnings out' = warnings out /\
      obs out' = O5 (- o0 (obs out)) (- o1 (obs out)) (o2 (obs out))
                    (- o3 (obs out)) (- o4 (obs out)).
Proof.
  assert (Hc : cos (c2 (V4 0 1 0 0)) <> 0) by (simpl; rewrite cos_0; lra).
  destruct (stepSwingUp_returns (mkEnv (Some (V4 0 1 0 0)) None "RK4")
              (V4 0 1 0 0) (force_of_action 0.5) eq_refl Hc) as [s1 Hs1].
  destruct (step_after_integration _ 0.5 s1 Hs1)
    as (out & env1 & Hstep & Hst & _).
  exists out, env1, s1. split; [exact Hstep |]. split; [exact Hst |].
  apply (step_mirror (V4 0 1 0 0) None "RK4" 0.5 out env1 s1 Hstep Hst).
Defined.

(** ** The integrator modes *)

(** X5.  In [stepPhysics] the modes ["euler"] and ["RK4"] return the same state,
    the explicit Euler update of the stored state. *)
Theorem stepPhysics_euler_mode_equals_rk4_mode
    (s : vec4) (n n' : option Z) (F : R) :
  stepPhysics (mkEnv (Some s) n "euler") F
    = Ok (euler_update derivative tau s F) /\
  stepPhysics (mkEnv (Some s) n "euler") F
    = stepPhysics (mkEnv (Some s) n' "RK4") F.
Proof.
  rewrite (stepPhysics_RK4 (mkEnv (Some s) n' "RK4") s F eq_refl eq_refl).
  destruct s as [x xd th thd]. unfold stepPhysics.
  cbn -[xacc_of thetaacc_of]. split; reflexivity.
Qed.

(** X6.  The mode ["semi-euler"] returns the velocities of the Euler update and
    advances the positions with these new velocities: its positions exceed
    those of the Euler update by [tau ^ 2] times the accelerations. *)
Theorem stepPhysics_semi_euler_mode (s : vec4) (n : option Z) (F : R) :
  exists r,
    stepPhysics (mkEnv (Some s) n "semi-euler") F = Ok r /\
    let e := euler_update derivative tau s F in
    c1 r = c1 e /\ c3 r = c3 e /\
    c0 r = c0 s + tau * c1 r /\ c2 r = c2 s + tau * c3 r /\
    c0 r - c0 e = tau ^ 2 * c1 (derivative s F) /\
    c2 r - c2 e = tau ^ 2 * c3 (derivative s F).
Proof.
  destruct s as [x xd th thd]. unfold stepPhysics.
  cbn -[xacc_of thetaacc_of]. eexists. split; [reflexivity |].
  cbn -[xacc_of thetaacc_of]. repeat split; ring.
Qed.

(** X7.  With an integrator name other than the three the code tests for, no
    branch integrates: [stepPhysics] returns the stored state unchanged, and
    [stepSwingUp] returns it with the angle replaced by
    [atan (sin theta / cos theta)]. *)
Theorem unknown_integrator_freezes_state
    (env : Env) (s : vec4) (F : R) :
  state env = Some s ->
  kinematics_integrator env <> "euler"%string ->
  kinematics_integrator env <> "semi-euler"%string ->
  kinematics_integrator env <> "RK4"%string ->
  stepPhysics env F = Ok s /\
  (cos (c2 s) <> 0 ->
   stepSwingUp env F
     = Ok (V4 (c0 s) (c1 s) (atan (sin (c2 s) / cos (c2 s))) (c3 s))).
Proof.
  intros Hs H1 H2 H3.
  apply String.eqb_neq in H1, H2, H3.
  destruct env as [st n mode]. cbn in *. subst st.
  destruct s as [x xd th thd]. split.
  - unfold stepPhysics. cbn -[xacc_of thetaacc_of String.eqb].
    rewrite H1, H2, H3. reflexivity.
  - intros Hc. unfold stepSwingUp.
    cbn -[xacc_of thetaacc_of String.eqb Req_dec_T] in *.
    destruct (Req_dec_T (cos th) 0) as [E | _]; [contradiction |].
    cbn -[xacc_of thetaacc_of String.eqb].
    rewrite H1, H2, H3. reflexivity.
Qed.

Lemma unknown_integrator_freezes_state_witness :
  let s := V4 0.1 1 0.2 3 in
  let env := mkEnv (Some s) None "semi-implicit-euler" in
  state env = Some s /\
  kinematics_integrator env <> "euler"%string /\
  kinematics_integrator env <> "semi-euler"%string /\
  kinematics_integrator env <> "RK4"%string /\
  stepPhysics env 10 = Ok s /\
  (cos (c2 s) <> 0 ->
   stepSwingUp env 10
     = Ok (V4 (c0 s) (c1 s) (atan (sin (c2 s) / cos (c2 s))) (c3 s))).
Proof.
  intros s env.
  split; [reflexivity |].
  split; [discriminate |]. split; [discriminate |]. split; [discriminate |].
  apply (unknown_integrator_freezes_state env s 10);
    [reflexivity | discriminate | discriminate | discriminate].
Defined.

(** ** Equilibria *)

Lemma derivative_at_rest (x th : R) :
  sin th = 0 -> derivative (V4 x 0 th 0) 0 = V4 0 0 0 0.
Proof.
  intros Hs. unfold derivative. rewrite Hs.
  unfold xacc_of, thetaacc_of, Rdiv. f_equal; ring.
Qed.

(** X8.  A pole at rest with [sin theta = 0] (upright, or hanging) under zero
    force stays where it is: [stepPhysics] returns the stored state, in
    every integrator mode. *)
Theorem rest_is_a_fixed_point
    (x th : R) (n : option Z) (mode : string) :
  sin th = 0 ->
  stepPhysics (mkEnv (Some (V4 x 0 th 0)) n mode) 0 = Ok (V4 x 0 th 0).
Proof.
  intros Hs. pose proof (derivative_at_rest x th Hs) as Hd.
  unfold derivative in Hd. injection Hd as Ha Hb.
  unfold stepPhysics, RHS. cbn -[xacc_of thetaacc_of String.eqb].
  rewrite Ha, Hb.
  destruct (String.eqb mode "euler"), (String.eqb mode "semi-euler"),
    (String.eqb mode "RK4"); cbn;
    f_equal; apply vec4_eq; cbn; field.
Qed.

Lemma rest_is_a_fixed_point_witness :
  sin PI = 0 /\
  stepPhysics (mkEnv (Some (V4 0.1 0 PI 0)) None "RK4") 0
    = Ok (V4 0.1 0 PI 0).
Proof.
  split; [exact sin_PI |].
  apply (rest_is_a_fixed_point 0.1 PI None "RK4"). exact sin_PI.
Defined.

(** ** What one call of [step] can and cannot depend on *)

(** X9.  In the default mode the action of a call does not reach the position,
    the angle, the flags, the reward, the counter or the warnings of that
    call: the cart position returned is [x + tau * x_dot] and the angle is
    [theta + tau * theta_dot] whatever the action, and two calls from the
    same object with different actions agree on everything but the two
    velocities. *)
Theorem step_outcome_ignores_action
    (env : Env) (s : vec4) (a b : R) :
  state env = Some s ->
  kinematics_integrator env = "RK4"%string ->
  cos (c2 s) <> 0 ->
  exists oa ea ob eb,
    step env a = Ok (oa, ea) /\ step env b = Ok (ob, eb) /\
    o0 (obs oa) = c0 s + tau * c1 s /\ o0 (obs ob) = c0 s + tau * c1 s /\
    o2 (obs oa) = cos (c2 s + tau * c3 s) /\
    o2 (obs ob) = cos (c2 s + tau * c3 s) /\
    o3 (obs oa) = sin (c2 s + tau * c3 s) /\
    o3 (obs ob) = sin (c2 s + tau * c3 s) /\
    terminated oa = terminated ob /\ off_track oa = off_track ob /\
    reward oa = reward ob /\ warnings oa = warnings ob /\
    steps_beyond_terminated ea = steps_beyond_terminated eb.
Proof.
  intros Hs Hm Hc.
  pose proof (stepSwingUp_RK4 env s (force_of_action a) Hs Hm Hc) as Ia.
  pose proof (stepSwingUp_RK4 env s (force_of_action b) Hs Hm Hc) as Ib.
  destruct (step_after_integration _ _ _ Ia)
    as (oa & ea & Ha & _ & _ & Hoa & Hta & Hfa & Hna & Hfa' & Hla).
  destruct (step_after_integration _ _ _ Ib)
    as (ob & eb & Hb & _ & _ & Hob & Htb & Hfb & Hnb & Hfb' & Hlb).
  destruct (euler_update_components s (force_of_action a))
    as (Ea0 & _ & Ea2 & _).
  destruct (euler_update_components s (force_of_action b))
    as (Eb0 & _ & Eb2 & _).
  rewrite Ea0 in Hfa. rewrite Ea2 in Hta. rewrite Eb0 in Hfb.
  rewrite Eb2 in Htb.
  assert (T : terminated oa = terminated ob) by congruence.
  assert (O : off_track oa = off_track ob) by congruence.
  exists oa, ea, ob, eb.
  split; [exact Ha |]. split; [exact Hb |].
  rewrite Hoa, Hob. cbn [o0 o2 o3]. rewrite Ea0, Ea2, Eb0, Eb2.
  repeat (split; [reflexivity |]).
  split; [exact T |]. split; [exact O |].
  destruct (terminated ob) eqn:E.
  - destruct (steps_beyond_terminated env) as [k |] eqn:K.
    + destruct (Hla T k eq_refl) as (-> & -> & ->).
      destruct (Hlb eq_refl k eq_refl) as (-> & -> & ->). tauto.
    + destruct (Hfa' T eq_refl) as (-> & -> & ->).
      destruct (Hfb' eq_refl eq_refl) as (-> & -> & ->). tauto.
  - destruct (Hna T) as (-> & -> & ->).
    destruct (Hnb eq_refl) as (-> & -> & ->). rewrite O. tauto.
Qed.

Lemma step_outcome_ignores_action_witness :
  let s := V4 0 1 0 0 in
  let env := mkEnv (Some s) None "RK4" in
  state env = Some s /\
  kinematics_integrator env = "RK4"%string /\
  cos (c2 s) <> 0 /\
  exists oa ea ob eb,
    step env (-1) = Ok (oa, ea) /\ step env 1 = Ok (ob, eb) /\
    o0 (obs oa) = c0 s + tau * c1 s /\ o0 (obs ob) = c0 s + tau * c1 s /\
    o2 (obs oa) = cos (c2 s + tau * c3 s) /\
    o2 (obs ob) = cos (c2 s + tau * c3 s) /\
    o3 (obs oa) = sin (c2 s + tau * c3 s) /\
    o3 (obs ob) = sin (c2 s + tau * c3 s) /\
    terminated oa = terminated ob /\ off_track oa = off_track ob /\
    reward oa = reward ob /\ warnings oa = warnings ob /\
    steps_beyond_terminated ea = steps_beyond_terminated eb.
Proof.
  intros s env.
  assert (Hc : cos (c2 s) <> 0) by (simpl; rewrite cos_0; lra).
  split; [reflexivity |]. split; [reflexivity |]. split; [exact Hc |].
  apply (step_outcome_ignores_action env s (-1) 1);
    [reflexivity | reflexivity | exact Hc].
Defined.

(** X10.  The reward of a call is one of -1000, 100 and 1000; it is -1000
    exactly when the call is off the track and not terminal, and 100
    exactly when the call is terminal and the counter was unset. *)
Theorem step_reward_values
    (env : Env) (action : R) (out : StepReturn) (env' : Env) :
  step env action = Ok (out, env') ->
  (reward out = -1000 \/ reward out = 100 \/ reward out = 1000) /\
  (reward out = -1000 <-> terminated out = false /\ off_track out = true) /\
  (reward out = 100 <->
   terminated out = true /\ steps_beyond_terminated env = None).
Proof.
  intros H. destruct (step_inversion _ _ _ _ H) as [s' Hs'].
  destruct (step_after_integration _ _ _ Hs')
    as (o & e & H' & _ & _ & _ & _ & _ & Hn & Hf & Hl).
  rewrite H in H'. injection H' as <- <-.
  destruct (terminated out) eqn:T.
  - destruct (steps_beyond_terminated env) as [k |] eqn:K.
    + destruct (Hl eq_refl k eq_refl) as (-> & _).
      repeat split; intros; try tauto; try lra; try discriminate;
        try (destruct H0; discriminate).
    + destruct (Hf eq_refl eq_refl) as (-> & _).
      repeat split; intros; try tauto; try lra; try discriminate;
        try (destruct H0; discriminate).
  - destruct (Hn eq_refl) as (-> & _).
    destruct (off_track out);
      repeat split; intros; try tauto; try lra; try discriminate;
        try (destruct H0; discriminate).
Qed.

Lemma step_reward_values_witness :
  exists o1 o2 env1 env2,
    step passing_env 0 = Ok (o1, env1) /\
    ((reward o1 = -1000 \/ reward o1 = 100 \/ reward o1 = 1000) /\
     (reward o1 = -1000 <-> terminated o1 = false /\ off_track o1 = true) /\
     (reward o1 = 100 <->
      terminated o1 = true /\ steps_beyond_terminated passing_env = None)) /\
    run passing_env [0; 0] = Ok ([o1; o2], env2).
Proof.
  destruct passing_trace as (o1 & o2 & env2 & Hrun & _).
  destruct (run_cons _ _ _ _ _ Hrun)
    as (o & env1 & outs1 & Hstep & _ & E).
  injection E as <- _.
  exists o1, o2, env1, env2. split; [exact Hstep |].
  split; [| exact Hrun].
  apply (step_reward_values passing_env 0 o1 env1 Hstep).
Defined.

(** ** The first call after a default [reset] *)

(** X11.  After [reset] with the default bounds the pole hangs within 0.08 rad
    of straight down: the cosine in the observation is negative.  In the
    default mode the first [step] then returns for every action, is neither
    terminal nor off the track, is rewarded 1000 and emits no warning. *)
Theorem first_step_after_default_reset
    (env : Env) (u : vec4) (action : R) :
  kinematics_integrator env = "RK4"%string ->
  0 <= c0 u <= 1 -> 0 <= c1 u <= 1 -> 0 <= c2 u <= 1 -> 0 <= c3 u <= 1 ->
  exists o env1 out env2,
    reset env None u = Ok (o, env1) /\
    o1 o < 0 /\
    step env1 action = Ok (out, env2) /\
    terminated out = false /\ off_track out = false /\
    reward out = 1000 /\ warnings out = [] /\
    steps_beyond_terminated env2 = None.
Proof.
  intros Hm H0 H1 H2 H3.
  pose proof (reset_returns env None u (-0.08) 0.08 eq_refl) as Hr.
  cbv zeta in Hr.
  set (r := uniform (-0.08) 0.08 u) in *.
  set (s := V4 (c0 r) (c1 r) (c2 r - PI) (c3 r)) in *.
  assert (B0 : -0.08 <= c0 r <= 0.08)
    by (apply uniform_component_bounds; [lra | exact H0]).
  assert (B1 : -0.08 <= c1 r <= 0.08)
    by (apply uniform_component_bounds; [lra | exact H1]).
  assert (B2 : -0.08 <= c2 r <= 0.08)
    by (apply uniform_component_bounds; [lra | exact H2]).
  assert (B3 : -0.08 <= c3 r <= 0.08)
    by (apply uniform_component_bounds; [lra | exact H3]).
  pose proof PI2_1 as Hpi. pose proof PI_4 as Hpi4.
  assert (Hcos : cos (c2 s) < 0).
  { cbn [c2 s]. pose proof (neg_cos (c2 r - PI)) as E.
    replace (c2 r - PI + PI) with (c2 r) in E by ring.
    assert (0 < cos (c2 r)) by (apply cos_gt_0; lra). lra. }
  set (env1 := mkEnv (Some s) None (kinematics_integrator env)) in *.
  assert (I : stepSwingUp env1 (force_of_action action)
              = Ok (euler_update derivative tau s (force_of_action action))).
  { apply stepSwingUp_RK4; [reflexivity | exact Hm | lra]. }
  destruct (step_after_integration _ _ _ I)
    as (out & env2 & Hstep & _ & _ & _ & Ht & Ho & Hn & _).
  destruct (euler_update_components s (force_of_action action))
    as (E0 & _ & E2 & _).
  rewrite E2 in Ht. rewrite E0 in Ho. cbn [c0 c1 c2 c3 s] in Ht, Ho.
  assert (T : terminated out = false).
  { rewrite Ht. destruct (Rltb _ _) eqn:E; [| reflexivity].
    apply Rltb_true_iff in E. unfold theta_threshold_radians, tau, fps in E.
    rewrite Rabs_left in E; lra. }
  assert (O : off_track out = false).
  { rewrite Ho. destruct (Rgtb _ _) eqn:E; [| reflexivity].
    apply Rgtb_true_iff in E. unfold x_threshold, tau, fps in E.
    assert (Rabs (c0 r + 1 / 100 * c1 r) < 0.25)
      by (apply Rabs_def1; lra). lra. }
  destruct (Hn T) as (Hrw & Hk & Hw). rewrite O in Hrw.
  do 4 eexists. split; [exact Hr |].
  split; [exact Hcos |]. split; [exact Hstep |].
  repeat split; try assumption.
Qed.

Lemma first_step_after_default_reset_witness :
  let u := V4 0 0.25 0.5 1 in
  kinematics_integrator init = "RK4"%string /\
  0 <= c0 u <= 1 /\ 0 <= c1 u <= 1 /\ 0 <= c2 u <= 1 /\ 0 <= c3 u <= 1 /\
  exists o env1 out env2,
    reset init None u = Ok (o, env1) /\
    o1 o < 0 /\
    step env1 (-1) = Ok (out, env2) /\
    terminated out = false /\ off_track out = false /\
    reward out = 1000 /\ warnings out = [] /\
    steps_beyond_terminated env2 = None.
Proof.
  intros u. split; [reflexivity |].
  split; [simpl; lra |]. split; [simpl; lra |].
  split; [simpl; lra |]. split; [simpl; lra |].
  apply (first_step_after_default_reset init u (-1));
    try reflexivity; simpl; lra.
Defined.

(** ** The counter along an episode *)

Lemma run_counter (actions : list R) :
  forall env outs env',
    counter_ok env ->
    run env actions = Ok (outs, env') ->
    counter_ok env' /\
    terminal_steps_seen env'
      = (terminal_steps_seen env + terminal_count outs)%Z /\
    kinematics_integrator env' = kinematics_integrator env /\
    List.length outs = List.length actions.
Proof.
  induction actions as [| a rest IH]; intros env outs env' Hok Hrun.
  - injection Hrun as <- <-. cbn. repeat split; try assumption. lia.
  - destruct (run_cons env a rest outs env' Hrun)
      as (o & env1 & outs1 & Hstep & Hrest & ->).
    destruct (step_transition env a o env1 Hstep)
      as (_ & _ & _ & Hok1 & Hseen & _).
    destruct (step_inversion _ _ _ _ Hstep) as [s' Hs'].
    destruct (step_after_integration _ _ _ Hs')
      as (o' & e' & H' & _ & Hmode & _).
    rewrite Hstep in H'. injection H' as <- <-.
    destruct (IH env1 outs1 env' (Hok1 Hok) Hrest) as (K1 & K2 & K3 & K4).
    repeat split; try assumption.
    + rewrite K2, Hseen. cbn [terminal_count]. lia.
    + congruence.
    + cbn [List.length]. lia.
Qed.

(** X12.  In an episode that starts with the counter unset, one output is
    returned per action, the integrator name is kept, and the counter ends
    unset when no call returned [terminated = true] and otherwise at the
    number of such calls minus one. *)
Theorem counter_counts_terminal_calls
    (env : Env) (actions : list R) (outs : list StepReturn) (env' : Env) :
  steps_beyond_terminated env = None ->
  run env actions = Ok (outs, env') ->
  List.length outs = List.length actions /\
  kinematics_integrator env' = kinematics_integrator env /\
  (terminal_count outs = 0%Z -> steps_beyond_terminated env' = None) /\
  (terminal_count outs <> 0%Z ->
   steps_beyond_terminated env' = Some (terminal_count outs - 1)%Z).
Proof.
  intros Hn Hrun.
  assert (Hok : counter_ok env)
    by (intros k E; rewrite Hn in E; discriminate).
  destruct (run_counter actions env outs env' Hok Hrun)
    as (Hok' & Hseen & Hmode & Hlen).
  unfold terminal_steps_seen in Hseen. rewrite Hn in Hseen.
  split; [exact Hlen |]. split; [exact Hmode |].
  destruct (steps_beyond_terminated env') as [k |] eqn:K.
  - specialize (Hok' k K). split; intros; [lia |].
    f_equal. lia.
  - split; intros; [reflexivity | lia].
Qed.

Lemma counter_counts_terminal_calls_witness :
  exists o1 o2 o3 env3,
    steps_beyond_terminated returning_env = None /\
    run returning_env [0; -1; 0] = Ok ([o1; o2; o3], env3) /\
    List.length [o1; o2; o3] = List.length [0; -1; 0] /\
    kinematics_integrator env3 = kinematics_integrator returning_env /\
    (terminal_count [o1; o2; o3] = 0%Z ->
     steps_beyond_terminated env3 = None) /\
    (terminal_count [o1; o2; o3] <> 0%Z ->
     steps_beyond_terminated env3
       = Some (terminal_count [o1; o2; o3] - 1)%Z).
Proof.
  destruct returning_trace as (o1 & o2 & o3 & env3 & Hrun & _).
  exists o1, o2, o3, env3.
  split; [reflexivity |]. split; [exact Hrun |].
  apply (counter_counts_terminal_calls returning_env [0; -1; 0]
           [o1; o2; o3] env3); [reflexivity | exact Hrun].
Defined.

(** ** Observations *)

(** X13.  The cosine and sine components of every observation, of [step] as of
    [reset], lie on the unit circle. *)
Theorem observations_lie_on_unit_circle
    (env : Env) (action : R) (out : StepReturn) (env' : Env)
    (renv : Env) (options : option ResetOptions) (u : vec4)
    (o : obs5) (renv' : Env) :
  step env action = Ok (out, env') ->
  reset renv options u = Ok (o, renv') ->
  (o2 (obs out)) ^ 2 + (o3 (obs out)) ^ 2 = 1 /\
  (o0 o) ^ 2 + (o1 o) ^ 2 = 1.
Proof.
  intros Hstep Hreset. split.
  - destruct (step_inversion _ _ _ _ Hstep) as [s' Hs'].
    destruct (step_after_integration _ _ _ Hs')
      as (o' & e' & H' & _ & _ & Hobs & _).
    rewrite Hstep in H'. injection H' as <- <-.
    rewrite Hobs. cbn [o2 o3].
    pose proof (sin2_cos2 (c2 s')) as E. unfold Rsqr in E. lra.
  - unfold reset in Hreset.
    destruct (maybe_parse_reset_bounds options (-0.08) 0.08)
      as [[low high] | e]; [| discriminate].
    cbn [bind] in Hreset.
    destruct (vsub (uniform low high u) (V4 0 0 PI 0)) as [x xd th thd].
    injection Hreset as <- _. cbn [o0 o1].
    pose proof (sin2_cos2 th) as E. unfold Rsqr in E. lra.
Qed.

Lemma observations_lie_on_unit_circle_witness :
  exists out env' o renv',
    step passing_env 0.5 = Ok (out, env') /\
    reset init None (V4 0 0.25 0.5 1) = Ok (o, renv') /\
    (o2 (obs out)) ^ 2 + (o3 (obs out)) ^ 2 = 1 /\
    (o0 o) ^ 2 + (o1 o) ^ 2 = 1.
Proof.
  assert (Hc : cos (c2 (V4 0.3 0 0 4)) <> 0) by (simpl; rewrite cos_0; lra).
  destruct (step_returns passing_env 0.5 (V4 0.3 0 0 4) eq_refl Hc)
    as (out & env' & Hstep).
  pose proof (reset_returns init None (V4 0 0.25 0.5 1) (-0.08) 0.08 eq_refl)
    as Hr.
  cbv zeta in Hr.
  do 4 eexists. split; [exact Hstep |]. split; [exact Hr |].
  apply (observations_lie_on_unit_circle passing_env 0.5 out env'
           init None (V4 0 0.25 0.5 1) _ _ Hstep Hr).
Defined.

(** ** The energy helper *)

(** X14.  [reward] raises on an object that was never reset.  Otherwise it
    returns [energy_total], which lies between
    [2/3 * m * l^2 * theta_dot - 2 * m * l * g] and
    [2/3 * m * l^2 * theta_dot]; the upper end is reached when the pole is
    upright and the lower end when it hangs. *)
Theorem energy_reward_range (env : Env) :
  match state env with
  | None => Energy.reward env = Energy.TypeError
  | Some s =>
      let kinetic := 2 / 3 * masspole * length ^ 2 * c3 s in
      exists e,
        Energy.reward env = Energy.Returned e /\
        kinetic - 2 * masspole * length * gravity <= e <= kinetic /\
        (cos (c2 s) = 1 -> e = kinetic) /\
        (cos (c2 s) = -1 -> e = kinetic - 2 * masspole * length * gravity)
  end.
Proof.
  unfold Energy.reward. destruct (state env) as [[x xd th thd] |];
    [| reflexivity].
  cbn [c2 c3]. eexists. split; [reflexivity |].
  pose proof (COS_bound th) as [Hl Hu].
  assert (0 < masspole * length * gravity)
    by (unfold masspole, length, gravity; lra).
  repeat split; try nra; intros ->; ring.
Qed.

(** ** The angle re-wrap in the remaining modes *)

Lemma atan_quotient_in_half_plane (t : R) :
  - (PI / 2) < t < PI / 2 -> atan (sin t / cos t) = t.
Proof.
  intros H. fold (tan t). apply atan_tan. exact H.
Qed.

(** X15.  While the stored angle is strictly between [-PI/2] and [PI/2] the
    re-wrap changes nothing: [stepSwingUp] returns what [stepPhysics]
    returns, in every integrator mode. *)
Theorem stepSwingUp_is_stepPhysics_in_half_plane
    (env : Env) (s : vec4) (F : R) :
  state env = Some s ->
  - (PI / 2) < c2 s < PI / 2 ->
  stepSwingUp env F = stepPhysics env F.
Proof.
  intros Hs Hr. destruct env as [st n mode]. cbn in Hs. subst st.
  destruct s as [x xd th thd]. cbn [c2] in Hr.
  assert (Hc : 0 < cos th) by (apply cos_gt_0; lra).
  unfold stepSwingUp, stepPhysics.
  cbn -[xacc_of thetaacc_of String.eqb Req_dec_T].
  destruct (Req_dec_T (cos th) 0) as [E | _]; [lra |].
  cbn -[xacc_of thetaacc_of String.eqb].
  rewrite (atan_quotient_in_half_plane th Hr). reflexivity.
Qed.

Lemma stepSwingUp_is_stepPhysics_in_half_plane_witness :
  let s := V4 0 1 0.5 0 in
  let env := mkEnv (Some s) None "semi-euler" in
  state env = Some s /\
  - (PI / 2) < c2 s < PI / 2 /\
  stepSwingUp env 3 = stepPhysics env 3.
Proof.
  intros s env. pose proof PI2_1 as Hpi.
  split; [reflexivity |]. split; [simpl; lra |].
  apply (stepSwingUp_is_stepPhysics_in_half_plane env s 3);
    [reflexivity | simpl; lra].
Defined.

(** X16.  In ["euler"] mode [stepSwingUp] advances the folded angle: the angle it
    returns, less [tau * theta_dot], lies strictly between [-PI/2] and
    [PI/2] and has the tangent of the stored angle.  Two stored angles half
    a turn apart, such as hanging and upright, therefore come back as the
    same angle. *)
Theorem stepSwingUp_euler_mode_folds_angle
    (x xd th thd : R) (n : option Z) (F F' : R) :
  cos th <> 0 ->
  exists r r',
    stepSwingUp (mkEnv (Some (V4 x xd th thd)) n "euler") F = Ok r /\
    stepSwingUp (mkEnv (Some (V4 x xd (th + PI) thd)) n "euler") F' = Ok r' /\
    - (PI / 2) < c2 r - tau * thd < PI / 2 /\
    tan (c2 r - tau * thd) = tan th /\
    c2 r' = c2 r /\
    c0 r = x + tau * xd /\ c0 r' = c0 r.
Proof.
  intros Hc.
  assert (Hc' : cos (th + PI) <> 0) by (rewrite neg_cos; lra).
  unfold stepSwingUp.
  cbn -[xacc_of thetaacc_of Req_dec_T].
  destruct (Req_dec_T (cos th) 0) as [E | _]; [contradiction |].
  destruct (Req_dec_T (cos (th + PI)) 0) as [E | _]; [contradiction |].
  cbn -[xacc_of thetaacc_of].
  do 2 eexists. split; [reflexivity |]. split; [reflexivity |].
  cbn [c0 c2].
  replace (atan (sin th / cos th) + tau * thd - tau * thd)
    with (atan (sin th / cos th)) by ring.
  pose proof (atan_bound (sin th / cos th)) as [Hl Hu].
  split; [lra |]. split; [apply tan_atan |].
  split; [| split; reflexivity].
  rewrite neg_sin, neg_cos. f_equal. f_equal. field. exact Hc.
Qed.

Lemma stepSwingUp_euler_mode_folds_angle_witness :
  cos 0 <> 0 /\
  exists r r',
    stepSwingUp (mkEnv (Some (V4 0 0 0 0)) None "euler") 0 = Ok r /\
    stepSwingUp (mkEnv (Some (V4 0 0 (0 + PI) 0)) None "euler") 0 = Ok r' /\
    - (PI / 2) < c2 r - tau * 0 < PI / 2 /\
    tan (c2 r - tau * 0) = tan 0 /\
    c2 r' = c2 r /\
    c0 r = 0 + tau * 0 /\ c0 r' = c0 r.
Proof.
  assert (Hc : cos 0 <> 0) by (rewrite cos_0; lra).
  split; [exact Hc |].
  apply (stepSwingUp_euler_mode_folds_angle 0 0 0 0 None 0 0 Hc).
Defined.

(** * The vectorised environment *)

Module VectorEnvFacts.
Import VectorEnv.

Lemma contains_spec (venv : VEnv) (action : list Z) :
  contains venv action = true <-> valid_action venv action.
Proof.
  unfold contains, valid_action. rewrite andb_true_iff, Nat.eqb_eq.
  rewrite forallb_forall, Forall_forall.
  split; intros [HL HA]; (split; [exact HL |]); intros a Ha;
    specialize (HA a Ha).
  - apply andb_true_iff in HA. destruct HA as [H0 H1].
    apply Z.leb_le in H0. apply Z.ltb_lt in H1. lia.
  - apply andb_true_iff. rewrite Z.leb_le, Z.ltb_lt. lia.
Qed.

Lemma map2_length {A B C : Type} (f : A -> B -> C) (l : list A) (m : list B) :
  List.length l = List.length m ->
  List.length (map2 f l m) = List.length l.
Proof.
  revert m. induction l as [| a l IH]; intros [| b m] H; cbn in *;
    try reflexivity; try discriminate.
  f_equal. apply IH. lia.
Qed.

Lemma assign_done_length (fresh : nat -> vec4) (cols : list vec4) :
  forall (done : list bool) (j : nat),
    List.length cols = List.length done ->
    List.length (assign_done fresh j cols done) = List.length cols.
Proof.
  induction cols as [| c cols IH]; intros [| b done] j H; cbn in *;
    try reflexivity; try discriminate.
  destruct b; cbn; f_equal; apply IH; lia.
Qed.

(** X17.  [step] checks the action before the state: an action of the wrong
    length or with an entry other than 0 and 1 raises the first assertion,
    an accepted action on an object that was never reset raises the second,
    and an accepted action on an object with shaped arrays returns. *)
Theorem step_assertions (venv : VEnv) (action : list Z) (draws : nat -> vec4) :
  (step venv action draws = Raise (AssertionError invalid_action_msg)
   <-> ~ valid_action venv action) /\
  (valid_action venv action -> state venv = None ->
   step venv action draws = Raise (AssertionError assert_msg)) /\
  (valid_action venv action -> forall cols, shaped venv cols ->
   exists ret venv', step venv action draws = Ok (ret, venv')).
Proof.
  unfold step. destruct (contains venv action) eqn:C; cbn [negb].
  - apply contains_spec in C. split; [| split].
    + split; [| tauto]. destruct (state venv); [| discriminate].
      destruct (existsb _ _); discriminate.
    + intros _ ->. reflexivity.
    + intros _ cols (Hs & _). rewrite Hs.
      destruct (existsb _ _); do 2 eexists; reflexivity.
  - assert (N : ~ valid_action venv action).
    { intros V. apply contains_spec in V. congruence. }
    split; [| split]; try tauto.
Qed.

Lemma assign_done_none (fresh : nat -> vec4) (cols : list vec4) :
  forall (done : list bool) (j : nat),
    List.length cols = List.length done ->
    existsb (fun b => b) done = false ->
    assign_done fresh j cols done = cols.
Proof.
  induction cols as [| c cols IH]; intros [| b done] j H E; cbn in *;
    try reflexivity; try discriminate.
  destruct b; [discriminate |]. f_equal. apply IH; [lia | exact E].
Qed.

Lemma zero_done_none (st : list Z) :
  forall done : list bool,
    List.length st = List.length done ->
    existsb (fun b => b) done = false ->
    map2 (fun c (b : bool) => if b then 0%Z else c) st done = st.
Proof.
  induction st as [| c st IH]; intros [| b done] H E; cbn in *;
    try reflexivity; try discriminate.
  destruct b; [discriminate |]. f_equal. apply IH; [lia | exact E].
Qed.

(** The result of [step], with the assignment to the flagged columns
    written out whether or not any column is flagged. *)
Lemma step_unfold
    (venv : VEnv) (cols : list vec4) (action : list Z) (draws : nat -> vec4) :
  valid_action venv action ->
  shaped venv cols ->
  let adv := map2 (advance (kinematics_integrator venv)) cols action in
  let term := map out_of_bounds adv in
  let st := map (fun c => wrap32 (c + 1)) (steps venv) in
  let trunc := map (fun c => Z.leb (max_episode_steps venv) c) st in
  let done := map2 orb term trunc in
  let cols' :=
    assign_done (fun j => uniform (low venv) (high venv) (draws j))
                0 adv done in
  let st' := map2 (fun c (b : bool) => if b then 0%Z else c) st done in
  List.length adv = num_envs venv /\
  List.length done = num_envs venv /\
  step venv action draws =
    Ok (mkStepReturn cols' (map (fun _ => 1) term) term trunc,
        mkVEnv (num_envs venv) (max_episode_steps venv)
               (kinematics_integrator venv) st'
               (low venv) (high venv) (Some cols')
               (steps_beyond_terminated venv)).
Proof.
  intros V (Hs & Hc & Hl) adv term st trunc done cols' st'.
  assert (La : List.length adv = num_envs venv).
  { unfold adv. rewrite map2_length; [exact Hc |]. destruct V. lia. }
  assert (Lt : List.length term = num_envs venv)
    by (unfold term; rewrite length_map; exact La).
  assert (Ls : List.length st = num_envs venv)
    by (unfold st; rewrite length_map; exact Hl).
  assert (Lr : List.length trunc = num_envs venv)
    by (unfold trunc; rewrite length_map; exact Ls).
  assert (Ld : List.length done = num_envs venv)
    by (unfold done; rewrite map2_length; lia).
  split; [exact La |]. split; [exact Ld |].
  unfold step. apply contains_spec in V. rewrite V. cbn [negb].
  rewrite Hs. fold adv. fold term. fold st. fold trunc. fold done.
  destruct (existsb (fun b => b) done) eqn:E.
  - reflexivity.
  - unfold cols', st'.
    rewrite (assign_done_none _ adv done 0) by (try lia; exact E).
    rewrite (zero_done_none st done) by (try lia; exact E).
    reflexivity.
Qed.





Lemma not_out_of_bounds (s : vec4) :
  out_of_bounds s = false -> in_bounds s.
Proof.
  unfold out_of_bounds, in_bounds, Rltb, Rgtb.
  destruct (Rlt_dec (c0 s) (- x_threshold)); [discriminate |].
  destruct (Rgt_dec (c0 s) x_threshold); [discriminate |].
  destruct (Rlt_dec (c2 s) (- theta_threshold_radians)); [discriminate |].
  destruct (Rgt_dec (c2 s) theta_threshold_radians); [discriminate |].
  intros _. unfold Rgt in *. lra.
Qed.

Lemma uniform_in_box (lo hi : R) (u : vec4) :
  lo <= hi -> unit_draw u -> in_box lo hi (uniform lo hi u).
Proof.
  intros H (H0 & H1 & H2 & H3). unfold in_box, uniform. cbn [c0 c1 c2 c3].
  repeat split; apply uniform_component_bounds; assumption.
Qed.

Lemma map2_nth {A B C : Type} (f : A -> B -> C) (l : list A) :
  forall (m : list B) (i : nat) (a : A) (b : B),
    nth_error l i = Some a -> nth_error m i = Some b ->
    nth_error (map2 f l m) i = Some (f a b).
Proof.
  induction l as [| x l IH]; intros [| y m] [| i] a b Ha Hb; cbn in *;
    try discriminate.
  - congruence.
  - apply IH; assumption.
Qed.

Lemma assign_done_nth (fresh : nat -> vec4) (cols : list vec4) :
  forall (done : list bool) (j i : nat) (c : vec4) (b : bool),
    nth_error cols i = Some c -> nth_error done i = Some b ->
    (b = false -> nth_error (assign_done fresh j cols done) i = Some c) /\
    (b = true ->
     nth_error (assign_done fresh j cols done) i
       = Some (fresh (j + List.length (filter (fun d => d) (firstn i done)))
                     %nat)).
Proof.
  induction cols as [| x cols IH]; intros [| y done] j [| i] c b Hc Hb;
    cbn [nth_error assign_done firstn filter] in *; try discriminate.
  - injection Hc as <-. injection Hb as <-.
    destruct y; split; intros E; try discriminate; cbn.
    + rewrite Nat.add_0_r. reflexivity.
    + reflexivity.
  - destruct y; cbn [nth_error List.length].
    + destruct (IH done (S j) i c b Hc Hb) as [Hf Ht].
      split; [exact Hf |]. intros E. rewrite (Ht E). do 2 f_equal. lia.
    + apply IH; assumption.
Qed.

Lemma assign_done_in_bounds (fresh : nat -> vec4) :
  (forall j, in_bounds (fresh j)) ->
  forall (adv : list vec4) (trunc : list bool) (j : nat),
    List.length adv = List.length trunc ->
    Forall in_bounds
      (assign_done fresh j adv (map2 orb (map out_of_bounds adv) trunc)).
Proof.
  intros Hf. induction adv as [| c adv IH]; intros [| t trunc] j H;
    cbn in *; try discriminate; [constructor |].
  destruct (out_of_bounds c) eqn:E; cbn.
  - constructor; [apply Hf | apply IH; lia].
  - destruct t; constructor; try apply Hf; try (apply IH; lia).
    apply not_out_of_bounds. exact E.
Qed.

Lemma wrap32_small (z : Z) :
  (- 2 ^ 31 <= z <= 2 ^ 31 - 1)%Z -> wrap32 z = z.
Proof.
  intros H. unfold wrap32. rewrite Z.mod_small; lia.
Qed.

Lemma counters_after_step (m : Z) :
  (m <= 2 ^ 31 - 1)%Z ->
  forall (st : list Z) (term : list bool),
    List.length st = List.length term ->
    Forall (fun c => (0 <= c < Z.max 1 m)%Z) st ->
    Forall (fun c => (0 <= c < Z.max 1 m)%Z)
      (map2 (fun c (b : bool) => if b then 0%Z else c)
            (map (fun c => wrap32 (c + 1)) st)
            (map2 orb term
               (map (fun c => Z.leb m c)
                    (map (fun c => wrap32 (c + 1)) st)))).
Proof.
  intros Hm. induction st as [| c st IH]; intros [| t term] H F;
    cbn in *; try discriminate; [constructor |].
  inversion F as [| ? ? Hc F']; subst.
  constructor; [| apply IH; [lia | exact F']].
  rewrite wrap32_small by lia.
  destruct t; cbn; [lia |].
  destruct (Z.leb_spec m (c + 1)); lia.
Qed.

Lemma map_const_repeat {A : Type} (l : list A) :
  map (fun _ => 1) l = repeat 1 (List.length l).
Proof.
  induction l as [| a l IH]; cbn; [reflexivity | f_equal; exact IH].
Qed.

(** X19.  [step] keeps a healthy batch healthy.  For an accepted action it
    returns; what it returns and stores is one state per sub-environment,
    each within the position and angle thresholds; the reward is 1 for
    every sub-environment; and every counter stays below the episode
    length. *)
Theorem step_keeps_healthy
    (venv : VEnv) (action : list Z) (draws : nat -> vec4) :
  healthy venv ->
  valid_action venv action ->
  (forall j, unit_draw (draws j)) ->
  exists ret venv',
    step venv action draws = Ok (ret, venv') /\
    healthy venv' /\
    state venv' = Some (obs ret) /\
    Forall in_bounds (obs ret) /\
    reward ret = repeat 1 (num_envs venv) /\
    List.length (obs ret) = num_envs venv /\
    List.length (terminated ret) = num_envs venv /\
    List.length (truncated ret) = num_envs venv /\
    num_envs venv' = num_envs venv.
Proof.
  intros (cols & Hsh & _ & Hcnt & Hmax & Hlh & B1 & B2 & B3 & B4) V Hd.
  destruct (step_unfold venv cols action draws V Hsh) as (La & Ld & Hstep).
  cbv zeta in Hstep.
  set (adv := map2 (advance (kinematics_integrator venv)) cols action) in *.
  set (st := map (fun c => wrap32 (c + 1)) (steps venv)) in *.
  set (trunc := map (fun c => Z.leb (max_episode_steps venv) c) st) in *.
  set (fresh := fun j => uniform (low venv) (high venv) (draws j)) in *.
  set (done := map2 orb (map out_of_bounds adv) trunc) in *.
  destruct Hsh as (Hs & Hc & Hl).
  assert (Ltr : List.length trunc = num_envs venv)
    by (unfold trunc, st; rewrite !length_map; exact Hl).
  assert (Hfresh : forall j, in_bounds (fresh j)).
  { intros j. destruct (uniform_in_box _ _ _ Hlh (Hd j)) as (X & _ & T & _).
    fold (fresh j) in X, T. unfold in_bounds. lra. }
  assert (Hb : Forall in_bounds (assign_done fresh 0 adv done))
    by (apply assign_done_in_bounds; [exact Hfresh | lia]).
  assert (Lo : List.length (assign_done fresh 0 adv done) = num_envs venv)
    by (rewrite assign_done_length; lia).
  do 2 eexists. split; [exact Hstep |].
  cbn [obs reward terminated truncated state num_envs].
  split.
  { eexists. unfold shaped, counter_in_range.
    cbn [state steps num_envs max_episode_steps low high].
    split; [split; [reflexivity | split; [exact Lo |]] |].
    - rewrite map2_length; unfold st; rewrite length_map; lia.
    - split; [exact Hb |]. split; [| tauto].
      apply counters_after_step; [exact Hmax | | exact Hcnt].
      rewrite length_map. lia. }
  split; [reflexivity |]. split; [exact Hb |].
  split; [rewrite map_const_repeat, length_map, La; reflexivity |].
  split; [exact Lo |]. split; [rewrite length_map; exact La |].
  split; [exact Ltr | reflexivity].
Qed.

Lemma theta_threshold_lower : 0.2 < theta_threshold_radians.
Proof.
  unfold theta_threshold_radians. pose proof PI2_3_2. lra.
Qed.

Lemma half_draws_unit : forall j, unit_draw (half_draws j).
Proof. intros j. unfold unit_draw, half_draws. cbn. lra. Qed.

Lemma two_poles_healthy : healthy two_poles.
Proof.
  pose proof theta_threshold_lower as Ht.
  exists [V4 0 0 0 0; V4 0.01 0 0.02 0].
  unfold shaped, two_poles, counter_in_range.
  cbn [state steps num_envs max_episode_steps low high List.length].
  split; [repeat split |].
  split.
  { repeat constructor; unfold x_threshold; cbn; lra. }
  split; [repeat constructor; lia |].
  split; [lia |]. unfold x_threshold. repeat split; lra.
Qed.

Lemma two_poles_action : valid_action two_poles [0%Z; 1%Z].
Proof.
  split; [reflexivity |]. repeat constructor; lia.
Qed.

Lemma step_keeps_healthy_witness :
  healthy two_poles /\
  valid_action two_poles [0%Z; 1%Z] /\
  (forall j, unit_draw (half_draws j)) /\
  exists ret venv',
    step two_poles [0%Z; 1%Z] half_draws = Ok (ret, venv') /\
    healthy venv' /\
    state venv' = Some (obs ret) /\
    Forall in_bounds (obs ret) /\
    reward ret = repeat 1 (num_envs two_poles) /\
    List.length (obs ret) = num_envs two_poles /\
    List.length (terminated ret) = num_envs two_poles /\
    List.length (truncated ret) = num_envs two_poles /\
    num_envs venv' = num_envs two_poles.
Proof.
  split; [exact two_poles_healthy |].
  split; [exact two_poles_action |].
  split; [exact half_draws_unit |].
  apply (step_keeps_healthy two_poles [0%Z; 1%Z] half_draws
           two_poles_healthy two_poles_action half_draws_unit).
Defined.

(** X20.  What [step] does to one sub-environment.  The columns [step]
    stores are the columns it returns.  The [terminated] flag of a
    sub-environment says whether its advanced state left the thresholds and
    its [truncated] flag whether its incremented counter reached the episode
    length.  With neither flag the advanced state is stored and returned and
    the counter is incremented; with either flag the state stored and
    returned is a fresh draw between [low] and [high], the [k]-th one for
    the [k]-th flagged sub-environment, not the advanced state, and the
    counter is zero. *)
Theorem step_per_environment
    (venv : VEnv) (cols : list vec4) (action : list Z) (draws : nat -> vec4)
    (i : nat) (s : vec4) (a c : Z) :
  valid_action venv action ->
  shaped venv cols ->
  (forall j, unit_draw (draws j)) ->
  low venv <= high venv ->
  nth_error cols i = Some s ->
  nth_error action i = Some a ->
  nth_error (steps venv) i = Some c ->
  exists ret venv' stored,
    step venv action draws = Ok (ret, venv') /\
    state venv' = Some stored /\ stored = obs ret /\
    low venv' = low venv /\ high venv' = high venv /\
    let s' := advance (kinematics_integrator venv) s a in
    let c' := wrap32 (c + 1) in
    let te := out_of_bounds s' in
    let tr := Z.leb (max_episode_steps venv) c' in
    nth_error (terminated ret) i = Some te /\
    nth_error (truncated ret) i = Some tr /\
    nth_error (reward ret) i = Some 1 /\
    (te || tr = false ->
     nth_error stored i = Some s' /\
     nth_error (obs ret) i = Some s' /\
     nth_error (steps venv') i = Some c') /\
    (te || tr = true ->
     let k :=
       List.length
         (filter (fun d => d)
                 (firstn i (map2 orb (terminated ret) (truncated ret)))) in
     let fresh := uniform (low venv) (high venv) (draws k) in
     nth_error stored i = Some fresh /\
     nth_error (obs ret) i = Some fresh /\
     in_box (low venv) (high venv) fresh /\
     nth_error (steps venv') i = Some 0%Z).
Proof.
  intros V Hsh Hd Hle Hs Ha Hc.
  destruct (step_unfold venv cols action draws V Hsh) as (_ & _ & Hstep).
  cbv zeta in Hstep.
  do 3 eexists. split; [exact Hstep |].
  split; [reflexivity |]. split; [reflexivity |].
  split; [reflexivity |]. split; [reflexivity |].
  intros s' c' te tr.
  cbn [obs reward terminated truncated steps].
  set (mode := kinematics_integrator venv) in *.
  set (adv := map2 (advance mode) cols action) in *.
  set (st := map (fun c => wrap32 (c + 1)) (steps venv)) in *.
  set (trunc := map (fun c => Z.leb (max_episode_steps venv) c) st) in *.
  assert (Na : nth_error adv i = Some s')
    by (apply map2_nth; assumption).
  assert (Nt : nth_error (map out_of_bounds adv) i = Some te)
    by (apply map_nth_error; exact Na).
  assert (Ns : nth_error st i = Some c')
    by (unfold st; apply (map_nth_error (fun c => wrap32 (c + 1))); exact Hc).
  assert (Nr : nth_error trunc i = Some tr)
    by (unfold trunc;
        apply (map_nth_error (fun c => Z.leb (max_episode_steps venv) c));
        exact Ns).
  assert (Nd : nth_error (map2 orb (map out_of_bounds adv) trunc) i
               = Some (te || tr))
    by (apply map2_nth; assumption).
  split; [exact Nt |]. split; [exact Nr |].
  split.
  { apply (map_nth_error (fun _ => 1) _ _ Nt). }
  destruct (assign_done_nth
              (fun j => uniform (low venv) (high venv) (draws j))
              adv _ 0 i s' (te || tr) Na Nd) as [Hf Ht].
  pose proof (map2_nth (fun c (b : bool) => if b then 0%Z else c)
                st _ i c' (te || tr) Ns Nd) as Hz.
  split; intros E; rewrite E in Hz.
  - specialize (Hf E). repeat split; assumption.
  - specialize (Ht E). cbn [Nat.add] in Ht.
    split; [exact Ht |]. split; [exact Ht |].
    split; [| exact Hz].
    apply uniform_in_box; [exact Hle | apply Hd].
Qed.

Lemma step_per_environment_witness :
  valid_action two_poles [0%Z; 1%Z] /\
  shaped two_poles [V4 0 0 0 0; V4 0.01 0 0.02 0] /\
  (forall j, unit_draw (half_draws j)) /\
  low two_poles <= high two_poles /\
  nth_error [V4 0 0 0 0; V4 0.01 0 0.02 0] 1 = Some (V4 0.01 0 0.02 0) /\
  nth_error [0%Z; 1%Z] 1 = Some 1%Z /\
  nth_error (steps two_poles) 1 = Some 499%Z /\
  exists ret venv' stored,
    step two_poles [0%Z; 1%Z] half_draws = Ok (ret, venv') /\
    state venv' = Some stored /\ stored = obs ret /\
    low venv' = low two_poles /\ high venv' = high two_poles /\
    let s' :=
      advance (kinematics_integrator two_poles) (V4 0.01 0 0.02 0) 1 in
    let c' := wrap32 (499 + 1) in
    let te := out_of_bounds s' in
    let tr := Z.leb (max_episode_steps two_poles) c' in
    nth_error (terminated ret) 1 = Some te /\
    nth_error (truncated ret) 1 = Some tr /\
    nth_error (reward ret) 1 = Some 1 /\
    (te || tr = false ->
     nth_error stored 1 = Some s' /\
     nth_error (obs ret) 1 = Some s' /\
     nth_error (steps venv') 1 = Some c') /\
    (te || tr = true ->
     let k :=
       List.length
         (filter (fun d => d)
                 (firstn 1 (map2 orb (terminated ret) (truncated ret)))) in
     let fresh :=
       uniform (low two_poles) (high two_poles) (half_draws k) in
     nth_error stored 1 = Some fresh /\
     nth_error (obs ret) 1 = Some fresh /\
     in_box (low two_poles) (high two_poles) fresh /\
     nth_error (steps venv') 1 = Some 0%Z).
Proof.
  assert (Hsh : shaped two_poles [V4 0 0 0 0; V4 0.01 0 0.02 0])
    by (repeat split).
  assert (Hle : low two_poles <= high two_poles) by (cbn; lra).
  split; [exact two_poles_action |]. split; [exact Hsh |].
  split; [exact half_draws_unit |]. split; [exact Hle |].
  split; [reflexivity |]. split; [reflexivity |]. split; [reflexivity |].
  apply (step_per_environment two_poles [V4 0 0 0 0; V4 0.01 0 0.02 0]
           [0%Z; 1%Z] half_draws 1 (V4 0.01 0 0.02 0) 1 499
           two_poles_action Hsh half_draws_unit Hle
           eq_refl eq_refl eq_refl).
Defined.

Lemma reset_unfold
    (venv : VEnv) (options : option ResetOptions) (draws : nat -> vec4)
    (lo hi : R) :
  maybe_parse_reset_bounds options (-0.05) 0.05 = Ok (lo, hi) ->
  let cols :=
    map (fun j => uniform lo hi (draws j)) (seq 0 (num_envs venv)) in
  lo <= hi /\
  reset venv options draws =
    Ok (cols,
        mkVEnv (num_envs venv) (max_episode_steps venv)
               (kinematics_integrator venv) (steps venv)
               lo hi (Some cols) None).
Proof.
  intros Hb cols. split.
  - unfold maybe_parse_reset_bounds in Hb. destruct options as [o |].
    + destruct (Rgt_dec _ _) as [G | G]; [discriminate |].
      injection Hb as <- <-. unfold Rgt in G. lra.
    + injection Hb as <- <-. lra.
  - unfold reset. rewrite Hb. reflexivity.
Qed.

Lemma fresh_columns_in_box (lo hi : R) (draws : nat -> vec4) (n : nat) :
  lo <= hi ->
  (forall j, unit_draw (draws j)) ->
  Forall (in_box lo hi) (map (fun j => uniform lo hi (draws j)) (seq 0 n)).
Proof.
  intros Hle Hd. apply Forall_forall. intros s Hs.
  apply in_map_iff in Hs. destruct Hs as (j & <- & _).
  apply uniform_in_box; [exact Hle | apply Hd].
Qed.

(** X21.  [reset] stores one fresh state per sub-environment, each component
    between the parsed bounds, remembers the bounds for later automatic
    resets, and leaves the step counters as they were. *)
Theorem reset_redraws_and_keeps_counters
    (venv : VEnv) (options : option ResetOptions) (draws : nat -> vec4)
    (lo hi : R) :
  maybe_parse_reset_bounds options (-0.05) 0.05 = Ok (lo, hi) ->
  (forall j, unit_draw (draws j)) ->
  exists cols venv',
    reset venv options draws = Ok (cols, venv') /\
    state venv' = Some cols /\
    List.length cols = num_envs venv /\
    Forall (in_box lo hi) cols /\
    low venv' = lo /\ high venv' = hi /\
    steps venv' = steps venv /\
    num_envs venv' = num_envs venv /\
    max_episode_steps venv' = max_episode_steps venv.
Proof.
  intros Hb Hd.
  destruct (reset_unfold venv options draws lo hi Hb) as [Hle Hr].
  do 2 eexists. split; [exact Hr |].
  cbn [state low high steps num_envs max_episode_steps].
  split; [reflexivity |].
  split; [rewrite length_map, length_seq; reflexivity |].
  split; [apply fresh_columns_in_box; assumption |].
  repeat split.
Qed.

Lemma reset_redraws_and_keeps_counters_witness :
  maybe_parse_reset_bounds None (-0.05) 0.05 = Ok (-0.05, 0.05) /\
  (forall j, unit_draw (half_draws j)) /\
  exists cols venv',
    reset two_poles None half_draws = Ok (cols, venv') /\
    state venv' = Some cols /\
    List.length cols = num_envs two_poles /\
    Forall (in_box (-0.05) 0.05) cols /\
    low venv' = -0.05 /\ high venv' = 0.05 /\
    steps venv' = steps two_poles /\
    num_envs venv' = num_envs two_poles /\
    max_episode_steps venv' = max_episode_steps two_poles.
Proof.
  split; [reflexivity |]. split; [exact half_draws_unit |].
  apply (reset_redraws_and_keeps_counters two_poles None half_draws
           (-0.05) 0.05 eq_refl half_draws_unit).
Defined.

(** X22.  A batch that was constructed and reset with the default bounds is
    healthy, whatever its size, as long as the episode length fits an
    [int32]. *)
Theorem fresh_batch_is_healthy
    (n : nat) (m : Z) (draws : nat -> vec4) :
  (m <= 2 ^ 31 - 1)%Z ->
  (forall j, unit_draw (draws j)) ->
  exists cols venv',
    reset (init n m) None draws = Ok (cols, venv') /\
    healthy venv' /\
    Forall (in_box (-0.05) 0.05) cols.
Proof.
  intros Hm Hd.
  destruct (reset_unfold (init n m) None draws (-0.05) 0.05 eq_refl)
    as [Hle Hr].
  pose proof (fresh_columns_in_box (-0.05) 0.05 draws n Hle Hd) as Hbox.
  cbn [init num_envs max_episode_steps kinematics_integrator steps] in Hr.
  do 2 eexists. split; [exact Hr |]. split; [| exact Hbox].
  pose proof theta_threshold_lower as Ht.
  eexists. unfold shaped, counter_in_range.
  cbn [state steps num_envs max_episode_steps low high].
  split; [split; [reflexivity | split] |].
  - rewrite length_map, length_seq. reflexivity.
  - apply repeat_length.
  - split.
    { apply Forall_forall. intros s Hin.
      rewrite Forall_forall in Hbox.
      destruct (Hbox s Hin) as (X & _ & T & _).
      unfold in_bounds, x_threshold. lra. }
    split.
    { apply Forall_forall. intros c Hin. apply repeat_spec in Hin. lia. }
    split; [exact Hm |]. unfold x_threshold. repeat split; lra.
Qed.

Lemma fresh_batch_is_healthy_witness :
  (500 <= 2 ^ 31 - 1)%Z /\
  (forall j, unit_draw (half_draws j)) /\
  exists cols venv',
    reset (init 2 500) None half_draws = Ok (cols, venv') /\
    healthy venv' /\
    Forall (in_box (-0.05) 0.05) cols.
Proof.
  assert (H : (500 <= 2 ^ 31 - 1)%Z) by lia.
  split; [exact H |]. split; [exact half_draws_unit |].
  apply (fresh_batch_is_healthy 2 500 half_draws H half_draws_unit).
Defined.

End VectorEnvFacts.
